(** * benefind.ai: eligibility rule, resource parsing and voice-agent session

    A shallow embedding of the three pieces of logic of the web client:

    - [Eligibility]: the rule of [checkEligibility] of
      [services/geminiService.ts] in exact rational arithmetic, and
      [EligibilityIEEE]: the function as it runs, on doubles;
    - [Retrieval]: [getSnapResources] of the same file and the section
      parsing of [fetchResults] in the application component;
    - [Session]: the handlers of [pages/VoiceAgent.tsx].

    Conventions.  A JavaScript [number] is an IEEE 754 double where a
    statement depends on the values computed ([EligibilityIEEE]), and an
    exact rational ([Q]) where it only depends on their order.  A
    JavaScript string
    is the list of its UTF-16 code units.  An [async] function returns a
    [Promise], which is either resolved with a value or rejected with the
    thrown value.  React state and the calls made to the outside world
    (console, media devices, transport, timers) are threaded explicitly. *)

From Stdlib Require Import String Ascii DecimalString DecimalN.
From Stdlib Require Import Bool NArith ZArith QArith Qround Lia Lqa List FinFun.
From Stdlib Require Floats.
Import ListNotations.

(** ** JavaScript values shared by the three parts *)

Module Js.

(** A string is a sequence of UTF-16 code units. *)
Definition jsstring := list N.

(** The code units of an ASCII literal of the source. *)
Definition lit (s : string) : jsstring :=
  map N_of_ascii (list_ascii_of_string s).

(** The settled state of a promise: what [await] yields or throws. *)
Inductive Promise (A : Type) : Type :=
| Resolved (value : A)
| Rejected (thrown : jsstring).

Arguments Resolved {A} value.
Arguments Rejected {A} thrown.

Definition jsstring_eqb (a b : jsstring) : bool :=
  if list_eq_dec N.eq_dec a b then true else false.

(** [s.startsWith(p)], also the way a literal of a regular expression
    matches at the current position. *)
Fixpoint starts_with (p s : jsstring) : bool :=
  match p, s with
  | [], _ => true
  | _ :: _, [] => false
  | a :: p', b :: s' => N.eqb a b && starts_with p' s'
  end.

(** ECMAScript WhiteSpace and LineTerminator code points, the characters
    that [String.prototype.trim] strips. *)
Definition is_whitespace (c : N) : bool :=
  existsb (N.eqb c)
    [9; 10; 11; 12; 13; 32; 160; 5760; 8232; 8233; 8239; 8287; 12288; 65279]%N
  || (N.leb 8192 c && N.leb c 8202).

Fixpoint trimStart (s : jsstring) : jsstring :=
  match s with
  | [] => []
  | c :: s' => if is_whitespace c then trimStart s' else s
  end.

Definition trimEnd (s : jsstring) : jsstring := rev (trimStart (rev s)).

Definition trim (s : jsstring) : jsstring := trimEnd (trimStart s).

(** [s.slice(b, e)] for constant indices [0 <= b <= e]. *)
Definition slice (b e : nat) (s : jsstring) : jsstring :=
  firstn (e - b) (skipn b s).

(** The decimal text of a non-negative integer, as a template literal
    prints it. *)
Definition decimal (n : N) : jsstring :=
  lit (NilEmpty.string_of_uint (N.to_uint n)).

(** [Math.round]: the nearest integer, ties towards plus infinity. *)
Definition round (x : Q) : Z := Qfloor (x + (1 # 2)).

End Js.

Import Js.

(** ** The eligibility rule ([services/geminiService.ts]) *)

Module Eligibility.

Open Scope Q_scope.

(** The sentence of [reason]: the template chosen and the four values it
    interpolates (income, rounded limit, family size, state). *)
Inductive Reason : Type :=
| IncomeBelowLimit (monthlyIncome : Q) (roundedLimit : Z)
                   (familySize : Q) (state : jsstring)
| IncomeExceedsLimit (monthlyIncome : Q) (roundedLimit : Z)
                     (familySize : Q) (state : jsstring).

Record EligibilityResult : Type := {
  isEligible : bool;
  limit : Q;
  reason : Reason
}.

(** 2024 FPL for 1 person *)
Definition fplBase : Q := 15060 / 12.

(** 2024 FPL increment per person *)
Definition fplIncrement : Q := 5380 / 12.

Definition grossIncomeLimit (familySize : Q) : Q :=
  (fplBase + (familySize - 1) * fplIncrement) * 1.3.

Definition checkEligibility (familySize monthlyIncome : Q) (state : jsstring)
  : Promise EligibilityResult :=
  let grossIncomeLimit := grossIncomeLimit familySize in
  let isEligible := Qle_bool monthlyIncome grossIncomeLimit in
  Resolved {|
    isEligible := isEligible;
    limit := grossIncomeLimit;
    reason :=
      if isEligible
      then IncomeBelowLimit monthlyIncome (round grossIncomeLimit)
                            familySize state
      else IncomeExceedsLimit monthlyIncome (round grossIncomeLimit)
                              familySize state
  |}.

End Eligibility.

(** ** Numbers as the runtime has them: IEEE 754 doubles *)

Module JsNumber.

Import PrimFloat FloatOps SpecFloat.

(** The double nearest to an integer, ties to the even mantissa; beyond the
    largest double it is an infinity. *)
Definition of_Z (z : Z) : float :=
  SF2Prim (binary_normalize prec emax z 0 false).

(** [Math.round]: the nearest integer, ties towards plus infinity; zeros,
    infinities and [NaN] are returned as they are, and a result of zero
    keeps the sign of the argument. *)
Definition round (x : float) : float :=
  match Prim2SF x with
  | S754_finite s m e =>
      if (0 <=? e)%Z then x
      else
        let v := if s then Z.neg m else Z.pos m in
        let z := Z.shiftr (2 * v + 2 ^ (- e)) (1 - e) in
        if (z =? 0)%Z then (if s then (- 0)%float else 0%float)
        else of_Z z
  | S754_zero _ | S754_infinity _ | S754_nan => x
  end.

End JsNumber.

(** ** The eligibility rule as it runs ([services/geminiService.ts])

    [checkEligibility] once more, with every operation the one of the
    runtime: division, subtraction, multiplication, addition and comparison
    of doubles, each rounded to nearest. *)

Module EligibilityIEEE.

Import PrimFloat.
#[local] Set Warnings "-inexact-float".
#[local] Open Scope float_scope.

(** The sentence of [reason]: the template chosen and the four values it
    interpolates (income, rounded limit, family size, state). *)
Inductive Reason : Type :=
| IncomeBelowLimit (monthlyIncome : float) (roundedLimit : float)
                   (familySize : float) (state : jsstring)
| IncomeExceedsLimit (monthlyIncome : float) (roundedLimit : float)
                     (familySize : float) (state : jsstring).

Record EligibilityResult : Type := {
  isEligible : bool;
  limit : float;
  reason : Reason
}.

(** 2024 FPL for 1 person *)
Definition fplBase : float := 15060 / 12.

(** 2024 FPL increment per person *)
Definition fplIncrement : float := 5380 / 12.

Definition grossIncomeLimit (familySize : float) : float :=
  (fplBase + (familySize - 1) * fplIncrement) * 1.3.

Definition checkEligibility (familySize monthlyIncome : float)
           (state : jsstring) : Promise EligibilityResult :=
  let grossIncomeLimit := grossIncomeLimit familySize in
  let isEligible := monthlyIncome <=? grossIncomeLimit in
  Resolved {|
    isEligible := isEligible;
    limit := grossIncomeLimit;
    reason :=
      if isEligible
      then IncomeBelowLimit monthlyIncome (JsNumber.round grossIncomeLimit)
                            familySize state
      else IncomeExceedsLimit monthlyIncome (JsNumber.round grossIncomeLimit)
                              familySize state
  |}.

End EligibilityIEEE.

(** ** Resource retrieval ([getSnapResources]) and section parsing
    ([fetchResults]) *)

Module Retrieval.

Import Eligibility.

(** *** The regular expressions of the parsing step

    The three expressions have one shape,
    [/\[M\]([\s\S]*?)(?=\[A\]|\[B\]|$)/]: the literal marker, a lazy run
    of arbitrary code units captured as group 1, and a lookahead for one
    of the two other markers or the end of the input. *)

(** [(?=A|B|$)] at the current position; without the [m] flag [$] is the
    end of the input. *)
Definition lookahead (alternatives : list jsstring) (s : jsstring) : bool :=
  existsb (fun p => starts_with p s) alternatives
  || match s with [] => true | _ :: _ => false end.

(** [([\s\S]*?)] followed by [ahead]: the shortest run after which the
    continuation matches, tried from zero code units upwards. *)
Fixpoint lazy_any (ahead : jsstring -> bool) (s : jsstring) {struct s}
  : option jsstring :=
  if ahead s then Some []
  else match s with
       | [] => None
       | c :: s' => option_map (cons c) (lazy_any ahead s')
       end.

(** The whole expression tried at the start of [s]; the result is group 1. *)
Definition match_at (marker : jsstring) (alternatives : list jsstring)
           (s : jsstring) : option jsstring :=
  if starts_with marker s
  then lazy_any (lookahead alternatives) (skipn (length marker) s)
  else None.

(** [s.match(re)] for a non-global expression: the match at the leftmost
    position where the expression matches, or [null]. *)
Fixpoint regexp_match (marker : jsstring) (alternatives : list jsstring)
         (s : jsstring) {struct s} : option jsstring :=
  match match_at marker alternatives s with
  | Some group1 => Some group1
  | None =>
      match s with
      | [] => None
      | _ :: s' => regexp_match marker alternatives s'
      end
  end.

(** *** The grounded-generation service *)

Record WebChunk : Type := {
  uri : option jsstring;
  title : option jsstring
}.

(** A grounding chunk of the response: a web source, a maps source, or
    neither. *)
Record GroundingChunk : Type := {
  web : option WebChunk;
  maps : option WebChunk
}.

Module Response.
Record GroundingMetadata : Type := {
  groundingChunks : option (list GroundingChunk)
}.
Record Candidate : Type := {
  groundingMetadata : option GroundingMetadata
}.
Record t : Type := {
  text : option jsstring;
  candidates : option (list Candidate)
}.
End Response.

Record Tool : Type := { googleMaps : bool }.

Record Request : Type := {
  model : jsstring;
  contents : jsstring;
  tools : list Tool
}.

(** What [getSnapResources] returns. *)
Module SnapResources.
Record t : Type := {
  text : option jsstring;
  groundingChunks : list GroundingChunk
}.
End SnapResources.

Definition newline : jsstring := [10%N].

Definition prompt (zipcode state : jsstring) : jsstring :=
  lit "Find the following resources near zipcode " ++ zipcode
    ++ lit " in " ++ state ++ lit ":" ++ newline
  ++ lit "  1. The closest SNAP (Supplemental Nutrition Assistance Program) or Social Services office. Provide address and phone." ++ newline
  ++ lit "  2. 3 budget-friendly grocery stores (like Aldi, Walmart, or local discount markets) that accept SNAP/EBT." ++ newline
  ++ lit "  3. 3 local food pantries or food banks with their addresses and hours if available." ++ newline
  ++ lit "  " ++ newline
  ++ lit "  IMPORTANT: For every address found, format it as a clickable Markdown link that opens in Google Maps using this format: [Address](https://www.google.com/maps/search/?api=1&query=URL_ENCODED_ADDRESS)." ++ newline
  ++ lit "  " ++ newline
  ++ lit "  Return the information in a clear Markdown format. " ++ newline
  ++ lit "  Please separate the sections with these exact markers:" ++ newline
  ++ lit "  [SNAP_OFFICE]" ++ newline
  ++ lit "  [GROCERY_STORES]" ++ newline
  ++ lit "  [FOOD_PANTRIES]".

(** [response.candidates?.[0]?.groundingMetadata?.groundingChunks || []] *)
Definition chunks_or_empty (response : Response.t) : list GroundingChunk :=
  match Response.candidates response with
  | Some (candidate :: _) =>
      match Response.groundingMetadata candidate with
      | Some metadata =>
          match Response.groundingChunks metadata with
          | Some chunks => chunks
          | None => []
          end
      | None => []
      end
  | Some [] | None => []
  end.

(** What the application writes to the console or shows in a dialog. *)
Inductive Output : Type :=
| ConsoleError (label : jsstring) (thrown : jsstring)
| Alert (message : jsstring).

(** *** The parsed bundle *)

Inductive Marker : Type := SNAP_OFFICE | GROCERY_STORES | FOOD_PANTRIES.

Definition Marker_eq_dec (a b : Marker) : {a = b} + {a <> b}.
Proof. decide equality. Defined.

Definition token (m : Marker) : jsstring :=
  match m with
  | SNAP_OFFICE => lit "[SNAP_OFFICE]"
  | GROCERY_STORES => lit "[GROCERY_STORES]"
  | FOOD_PANTRIES => lit "[FOOD_PANTRIES]"
  end.

Record ParsedResources : Type := {
  office : jsstring;
  stores : jsstring;
  pantries : jsstring;
  fullText : jsstring;
  groundingChunks : list GroundingChunk
}.

Definition officeMatch (text : jsstring) : option jsstring :=
  regexp_match (token SNAP_OFFICE)
               [token GROCERY_STORES; token FOOD_PANTRIES] text.

Definition storesMatch (text : jsstring) : option jsstring :=
  regexp_match (token GROCERY_STORES)
               [token SNAP_OFFICE; token FOOD_PANTRIES] text.

Definition pantriesMatch (text : jsstring) : option jsstring :=
  regexp_match (token FOOD_PANTRIES)
               [token SNAP_OFFICE; token GROCERY_STORES] text.

(** [match ? match[1].trim() : ''] *)
Definition trimmed_group (m : option jsstring) : jsstring :=
  match m with
  | Some group1 => trim group1
  | None => []
  end.

(** The block under the comment [// Parse sections] of [fetchResults]. *)
Definition parsedResources (resources : SnapResources.t) : ParsedResources :=
  let text :=
    match SnapResources.text resources with
    | Some t => t
    | None => []
    end in
  {| office := trimmed_group (officeMatch text);
     stores := trimmed_group (storesMatch text);
     pantries := trimmed_group (pantriesMatch text);
     fullText := text;
     groundingChunks := SnapResources.groundingChunks resources |}.

(** The positions of a text at which a pattern occurs. *)
Definition occurs_at (p s : jsstring) (k : nat) : bool :=
  starts_with p (skipn k s).

Definition occurrences (p s : jsstring) : list nat :=
  filter (occurs_at p s) (seq 0 (S (length s))).

(** The section of a bundle that belongs to a marker. *)
Definition section (m : Marker) (r : ParsedResources) : jsstring :=
  match m with
  | SNAP_OFFICE => office r
  | GROCERY_STORES => stores r
  | FOOD_PANTRIES => pantries r
  end.

(** The "Verified Sources" links of the results view:
    [groundingChunks.map(chunk => chunk.web && <a href={chunk.web.uri}>)]. *)
Definition verifiedSources (r : ParsedResources) : list WebChunk :=
  flat_map (fun chunk => match web chunk with
                         | Some w => [w]
                         | None => []
                         end) (groundingChunks r).

(** *** Vocabulary of the parsing contract *)

(** The two markers that end the section of a marker. *)
Definition others (m : Marker) : list Marker :=
  match m with
  | SNAP_OFFICE => [GROCERY_STORES; FOOD_PANTRIES]
  | GROCERY_STORES => [SNAP_OFFICE; FOOD_PANTRIES]
  | FOOD_PANTRIES => [SNAP_OFFICE; GROCERY_STORES]
  end.

(** The text contains the marker exactly once. *)
Definition occurs_once (m : Marker) (t : jsstring) : Prop :=
  length (occurrences (token m) t) = 1%nat.

(** The text contains all three markers, each exactly once. *)
Definition each_marker_once (t : jsstring) : Prop :=
  forall m, occurs_once m t.

(** The text does not contain the marker. *)
Definition absent (m : Marker) (t : jsstring) : Prop :=
  occurrences (token m) t = [].

(** No marker begins at any of the first [n] positions of [s]. *)
Definition no_marker_before (n : nat) (s : jsstring) : Prop :=
  forall m k, (k < n)%nat -> occurs_at (token m) s k = false.

(** [s] is the end of the text or begins with a marker. *)
Definition at_marker_or_end (s : jsstring) : Prop :=
  s = [] \/ exists m, starts_with (token m) s = true.

(** The source URL of a citation record, if it has one. *)
Definition source_url (chunk : GroundingChunk) : option jsstring :=
  match web chunk with
  | Some w => uri w
  | None => match maps chunk with
            | Some w => uri w
            | None => None
            end
  end.

Definition has_source_url (chunk : GroundingChunk) : bool :=
  match source_url chunk with
  | Some _ => true
  | None => false
  end.

(** *** The application state around [fetchResults] *)

Inductive Step : Type := landing | location | household | results_step.

Record FormData : Type := {
  state : jsstring;
  zipcode : jsstring;
  familySize : Q;
  income : Q
}.

Record Results : Type := {
  eligibility : EligibilityResult;
  resources : ParsedResources
}.

Record App : Type := {
  step : Step;
  formData : FormData;
  loading : bool;
  results : option Results;
  output : list Output
}.

Definition setLoading (b : bool) (a : App) : App :=
  {| step := step a; formData := formData a; loading := b;
     results := results a; output := output a |}.

Definition setResults (r : Results) (a : App) : App :=
  {| step := step a; formData := formData a; loading := loading a;
     results := Some r; output := output a |}.

Definition setStep (s : Step) (a : App) : App :=
  {| step := s; formData := formData a; loading := loading a;
     results := results a; output := output a |}.

Definition emit (o : Output) (a : App) : App :=
  {| step := step a; formData := formData a; loading := loading a;
     results := results a; output := output a ++ [o] |}.

Section Service.

(** [ai.models.generateContent]: the external service, one settled
    promise per request. *)
Variable generateContent : Request -> Promise Response.t.

(** The promise returned by [getSnapResources] and the console lines
    written on the way. *)
Definition getSnapResources (zipcode state : jsstring)
  : Promise SnapResources.t * list Output :=
  let model := lit "gemini-2.5-flash" in
  let prompt := prompt zipcode state in
  match generateContent {| model := model; contents := prompt;
                           tools := [{| googleMaps := true |}] |} with
  | Resolved response =>
      (Resolved {| SnapResources.text := Response.text response;
                   SnapResources.groundingChunks :=
                     chunks_or_empty response |}, [])
  | Rejected error =>
      (Rejected error,
       [ConsoleError (lit "Error fetching SNAP resources:") error])
  end.

Definition fetchResults (a : App) : App :=
  let a := setLoading true a in
  let catch (error : jsstring) (a : App) : App :=
    emit (Alert (lit "Something went wrong. Please try again."))
         (emit (ConsoleError [] error) a) in
  let a :=
    match checkEligibility (familySize (formData a)) (income (formData a))
                           (state (formData a)) with
    | Rejected error => catch error a
    | Resolved eligibility =>
        let (settled, lines) :=
          getSnapResources (zipcode (formData a)) (state (formData a)) in
        let a := fold_left (fun a o => emit o a) lines a in
        match settled with
        | Rejected error => catch error a
        | Resolved resources =>
            let parsedResources := parsedResources resources in
            setStep results_step
              (setResults {| eligibility := eligibility;
                             resources := parsedResources |} a)
        end
    end in
  setLoading false a.

End Service.

End Retrieval.

(** ** The voice-agent session ([pages/VoiceAgent.tsx]) *)

Module Session.

(** The [status] of the conversation hook. *)
Inductive Status : Type := disconnected | connecting | connected.

Inductive Role : Type := user | agent.

Record Message : Type := {
  id : jsstring;
  role : Role;
  text : jsstring;
  timestamp : N
}.

(** What the runtime answers during one [addMessage]: [Date.now()], the
    text of [Math.random().toString(36)] and the instant of [new Date()],
    in the order the object literal evaluates them. *)
Record Readings : Type := {
  date_now : N;
  random_base36 : jsstring;
  new_date : N
}.

(** The event handed to [onMessage]; it has no other field. *)
Record MessageEvent : Type := {
  message : jsstring;
  source : jsstring
}.

(** A callback waiting in [setTimeout]: the [handleStartSession] closure of
    the render that scheduled it, with the [isTextMode] it captured. *)
Record Timer : Type := {
  delay : N;
  captured_isTextMode : bool
}.

(** The argument of [conversation.startSession]: the agent and whatever
    further properties are spread into the object. *)
Record SessionOptions : Type := {
  agentId : jsstring;
  spread : list (jsstring * jsstring)
}.

(** Calls to the outside world, in the order they are made. *)
Inductive Call : Type :=
| ConsoleLog (line : jsstring)
| ConsoleError (label : jsstring) (thrown : jsstring)
| GetUserMedia (audio : bool)
| StartSession (options : SessionOptions)
| EndSession
| SendUserMessage (text : jsstring)
| SetTimeout (delay : N)
| FocusInput.

(** The component state ([useState]), the hook's [status], the timers not
    yet fired and the calls made so far. *)
Record State : Type := {
  messages : list Message;
  isTextMode : bool;
  textInput : jsstring;
  status : Status;
  timers : list Timer;
  calls : list Call
}.

Definition initial : State :=
  {| messages := []; isTextMode := false; textInput := [];
     status := disconnected; timers := []; calls := [] |}.

Definition setMessages (f : list Message -> list Message) (s : State) : State :=
  {| messages := f (messages s); isTextMode := isTextMode s;
     textInput := textInput s; status := status s; timers := timers s;
     calls := calls s |}.

Definition setIsTextMode (f : bool -> bool) (s : State) : State :=
  {| messages := messages s; isTextMode := f (isTextMode s);
     textInput := textInput s; status := status s; timers := timers s;
     calls := calls s |}.

Definition setTextInput (v : jsstring) (s : State) : State :=
  {| messages := messages s; isTextMode := isTextMode s;
     textInput := v; status := status s; timers := timers s;
     calls := calls s |}.

Definition call (c : Call) (s : State) : State :=
  {| messages := messages s; isTextMode := isTextMode s;
     textInput := textInput s; status := status s; timers := timers s;
     calls := calls s ++ [c] |}.

Definition with_timers (ts : list Timer) (s : State) : State :=
  {| messages := messages s; isTextMode := isTextMode s;
     textInput := textInput s; status := status s; timers := ts;
     calls := calls s |}.

(** The transport library is outside the repository.  Its effect on
    [status] is taken from the interface the design gives it: a session
    that starts ends up [connected], one that fails to start or that is
    ended is [disconnected]. *)
Definition transport_status (st : Status) (s : State) : State :=
  {| messages := messages s; isTextMode := isTextMode s;
     textInput := textInput s; status := st; timers := timers s;
     calls := calls s |}.

Definition isConnected (s : State) : bool :=
  match status s with
  | connected => true
  | disconnected | connecting => false
  end.

Definition addMessage (role : Role) (text : jsstring) (r : Readings)
           (s : State) : State :=
  setMessages
    (fun prev =>
       prev ++ [{| id := decimal (date_now r) ++ lit "-"
                           ++ slice 2 9 (random_base36 r);
                   role := role;
                   text := text;
                   timestamp := new_date r |}]) s.

Definition onMessage (message : MessageEvent) (r : Readings) (s : State)
  : State :=
  if jsstring_eqb (source message) (lit "ai")
  then addMessage agent (Session.message message) r s
  else if jsstring_eqb (source message) (lit "user")
  then addMessage user (Session.message message) r s
  else s.

Section Agent.

(** [import.meta.env.VITE_ELEVENLABS_AGENT_ID || ''] *)
Variable AGENT_ID : jsstring.

(** [isTextMode] is the value captured by the closure; [permission] and
    [connection] are the settled promises of [getUserMedia] and of
    [conversation.startSession]. *)
Definition handleStartSession (isTextMode : bool)
           (permission connection : Promise unit) (s : State) : State :=
  let s := call (ConsoleLog (lit "Starting session...")) s in
  let s := call (GetUserMedia true) s in
  match permission with
  | Rejected err =>
      call (ConsoleError (lit "Failed to start session:") err) s
  | Resolved _ =>
      let s := call (StartSession
                       {| agentId := AGENT_ID;
                          spread := if isTextMode then [] else [] |}) s in
      match connection with
      | Rejected err =>
          call (ConsoleError (lit "Failed to start session:") err)
               (transport_status disconnected s)
      | Resolved _ => transport_status connected s
      end
  end.

(** [ended] is the settled promise of [conversation.endSession]. *)
Definition handleEndSession (ended : Promise unit) (s : State) : State :=
  let s := call EndSession s in
  match ended with
  | Rejected err => call (ConsoleError (lit "Failed to end session:") err) s
  | Resolved _ => transport_status disconnected s
  end.

Definition setTimeout (t : Timer) (s : State) : State :=
  call (SetTimeout (delay t)) (with_timers (timers s ++ [t]) s).

Definition handleToggleMode (ended : Promise unit) (s : State) : State :=
  let wasConnected := isConnected s in
  let render_isTextMode := isTextMode s in
  let s := if wasConnected then handleEndSession ended s else s in
  let s := setIsTextMode negb s in
  if wasConnected
  then setTimeout {| delay := 300;
                     captured_isTextMode := render_isTextMode |} s
  else s.

(** The oldest pending timer fires and runs its callback. *)
Definition fire_timer (permission connection : Promise unit) (s : State)
  : State :=
  match timers s with
  | [] => s
  | t :: rest =>
      handleStartSession (captured_isTextMode t) permission connection
                         (with_timers rest s)
  end.

Definition handleSendText (r : Readings) (s : State) : State :=
  match trim (textInput s) with
  | [] => s
  | _ :: _ =>
      if negb (isConnected s) then s
      else
        let s := addMessage user (trim (textInput s)) r s in
        let s := call (SendUserMessage (trim (textInput s))) s in
        let s := setTextInput [] s in
        call FocusInput s
  end.

(** A message reaching the controller: an event of the transport or a
    submission of the text box. *)
Inductive Arrival : Type :=
| FromTransport (event : MessageEvent)
| FromTextBox (typed : jsstring).

Definition ingest (a : Arrival) (r : Readings) (s : State) : State :=
  match a with
  | FromTransport event => onMessage event r s
  | FromTextBox typed => handleSendText r (setTextInput typed s)
  end.

Definition ingest_all (arrivals : list (Arrival * Readings)) (s : State)
  : State :=
  fold_left (fun s ar => ingest (fst ar) (snd ar) s) arrivals s.

End Agent.

(** *** Vocabulary of the message log *)

(** The arrivals that are user or agent messages: a transport event tagged
    ['ai'] or ['user'], or a non-blank submission while connected. *)
Definition ingestible (s : State) (a : Arrival) : Prop :=
  match a with
  | FromTransport event =>
      source event = lit "ai" \/ source event = lit "user"
  | FromTextBox typed => trim typed <> [] /\ status s = connected
  end.

Definition arrival_role (a : Arrival) : Role :=
  match a with
  | FromTransport event =>
      if jsstring_eqb (source event) (lit "ai") then agent else user
  | FromTextBox _ => user
  end.

Definition arrival_text (a : Arrival) : jsstring :=
  match a with
  | FromTransport event => message event
  | FromTextBox typed => trim typed
  end.

(** What an identifier is made of: the clock reading and the seven
    characters kept of the random text. *)
Definition draw (r : Readings) : N * jsstring :=
  (date_now r, slice 2 9 (random_base36 r)).

(** The message that an arrival is logged as. *)
Definition logged (ar : Arrival * Readings) : Message :=
  {| id := decimal (date_now (snd ar)) ++ lit "-"
             ++ slice 2 9 (random_base36 (snd ar));
     role := arrival_role (fst ar);
     text := arrival_text (fst ar);
     timestamp := new_date (snd ar) |}.

End Session.

(** ** The steps of the application around the form *)

Module Wizard.

Import Eligibility Retrieval.

(** *** [parseInt] *)

(** The value of a code unit as a digit of the radix: [0-9], [a-z] and
    [A-Z], when it is below the radix. *)
Definition digit_value (radix : N) (c : N) : option N :=
  let v :=
    if N.leb 48 c && N.leb c 57 then Some (c - 48)%N
    else if N.leb 97 c && N.leb c 122 then Some (c - 87)%N
    else if N.leb 65 c && N.leb c 90 then Some (c - 55)%N
    else None in
  match v with
  | Some d => if N.ltb d radix then Some d else None
  | None => None
  end.

(** The value of the longest prefix of digits, most significant first;
    [acc] is the value read so far, [None] while no digit was read. *)
Fixpoint parse_digits (radix : N) (s : jsstring) (acc : option N) {struct s}
  : option N :=
  match s with
  | [] => acc
  | c :: s' =>
      match digit_value radix c with
      | Some d =>
          parse_digits radix s'
            (Some match acc with
                  | Some a => (a * radix + d)%N
                  | None => d
                  end)
      | None => acc
      end
  end.

(** [parseInt(input)] without a radix: leading white space is skipped, a
    sign is read, [0x] or [0X] selects radix 16, and the longest prefix of
    digits is read as an integer; the result is the double nearest to it
    with the sign applied, or [NaN] when there is no digit. *)
Definition parseInt (input : jsstring) : PrimFloat.float :=
  let S := trimStart input in
  let (negative, S) :=
    match S with
    | 45%N :: S' => (true, S')
    | 43%N :: S' => (false, S')
    | _ => (false, S)
    end in
  let (R, S) :=
    match S with
    | 48%N :: 120%N :: S' => (16%N, S')
    | 48%N :: 88%N :: S' => (16%N, S')
    | _ => (10%N, S)
    end in
  match parse_digits R S None with
  | None => PrimFloat.nan
  | Some v =>
      if negative then PrimFloat.opp (JsNumber.of_Z (Z.of_N v))
      else JsNumber.of_Z (Z.of_N v)
  end.



(** *** The form *)

Definition setFormData (f : FormData) (a : App) : App :=
  {| step := step a; formData := f; loading := loading a;
     results := results a; output := output a |}.

(** [onChange] of the state selector. *)
Definition onStateChange (value : jsstring) (a : App) : App :=
  setFormData {| state := value;
                 zipcode := zipcode (formData a);
                 familySize := familySize (formData a);
                 income := income (formData a) |} a.

(** [onChange] of the zipcode field. *)
Definition onZipcodeChange (value : jsstring) (a : App) : App :=
  setFormData {| state := state (formData a);
                 zipcode := value;
                 familySize := familySize (formData a);
                 income := income (formData a) |} a.

(** [disabled] of the Continue button of the location step:
    [!formData.state || formData.zipcode.length < 5]. *)
Definition continueDisabled (a : App) : bool :=
  match state (formData a) with
  | [] => true
  | _ :: _ => Nat.ltb (length (zipcode (formData a))) 5
  end.

(** *** Navigation *)

Section Navigation.

Variable generateContent : Request -> Promise Response.t.

Definition handleNext (a : App) : App :=
  match step a with
  | landing => setStep location a
  | location => setStep household a
  | household => fetchResults generateContent a
  | results_step => a
  end.

Definition handleBack (a : App) : App :=
  match step a with
  | location => setStep landing a
  | household => setStep location a
  | results_step => setStep household a
  | landing => a
  end.

End Navigation.

(** *** The results screen *)

(** A string in a condition: the empty string is falsy. *)
Definition truthy (s : jsstring) : bool :=
  match s with
  | [] => false
  | _ :: _ => true
  end.

(** The blocks of the card "Local SNAP Offices & Stores". *)
Inductive Block : Type :=
| ClosestOffice (markdown : jsstring)
| GroceryStores (markdown : jsstring)
| WholeResponse (markdown : jsstring)
| VerifiedSources (links : list WebChunk).

Definition localResources (r : ParsedResources) : list Block :=
  (if truthy (office r) then [ClosestOffice (office r)] else [])
  ++ (if truthy (stores r) then [GroceryStores (stores r)] else [])
  ++ (if negb (truthy (office r)) && negb (truthy (stores r))
      then [WholeResponse (fullText r)] else [])
  ++ (if Nat.ltb 0 (length (groundingChunks r))
      then [VerifiedSources (verifiedSources r)] else []).

(** The card "Food Pantries" of the sidebar. *)
Inductive PantriesCard : Type :=
| PantriesMarkdown (markdown : jsstring)
| SearchingPlaceholder.

Definition foodPantries (r : ParsedResources) : PantriesCard :=
  if truthy (pantries r) then PantriesMarkdown (pantries r)
  else SearchingPlaceholder.

(** The eligibility card: the heading and the sentence under it. *)
Definition eligibilityHeading (e : EligibilityResult) : jsstring :=
  if isEligible e then lit "You may be eligible!"
  else lit "You might not qualify.".

Record ResultsScreen : Type := {
  heading : jsstring;
  sentence : Reason;
  main : list Block;
  sidebar : PantriesCard
}.

(** [step === 'results' && results && (...)] *)
Definition resultsScreen (a : App) : option ResultsScreen :=
  match step a, results a with
  | results_step, Some r =>
      Some {| heading := eligibilityHeading (eligibility r);
              sentence := reason (eligibility r);
              main := localResources (resources r);
              sidebar := foodPantries (resources r) |}
  | _, _ => None
  end.

End Wizard.

(** ** The voice-agent page as a whole *)

Module Controller.

Import Session.

(** The part of a keyboard event that [handleKeyDown] reads. *)
Record KeyboardEvent : Type := {
  key : jsstring;
  shiftKey : bool
}.

(** The state after the handler and whether [preventDefault] was called. *)
Definition handleKeyDown (e : KeyboardEvent) (r : Readings) (s : State)
  : State * bool :=
  if jsstring_eqb (key e) (lit "Enter") && negb (shiftKey e)
  then (handleSendText r s, true)
  else (s, false).

(** What can happen to the page: a tap on one of its buttons, a key or a
    change in the text box, an event of the transport, a timer firing.
    Promises are the settled results of the calls the handler awaits. *)
Inductive Action : Type :=
| TapStart (permission connection : Promise unit)
| TapEnd (ended : Promise unit)
| TapToggle (ended : Promise unit)
| TimerFires (permission connection : Promise unit)
| Message (event : MessageEvent) (r : Readings)
| Typing (value : jsstring)
| TapSend (r : Readings)
| KeyDown (e : KeyboardEvent) (r : Readings).

Section Agent.

Variable AGENT_ID : jsstring.

Definition act (a : Action) (s : State) : State :=
  match a with
  | TapStart permission connection =>
      handleStartSession AGENT_ID (isTextMode s) permission connection s
  | TapEnd ended => handleEndSession ended s
  | TapToggle ended => handleToggleMode ended s
  | TimerFires permission connection =>
      fire_timer AGENT_ID permission connection s
  | Message event r => onMessage event r s
  | Typing value => setTextInput value s
  | TapSend r => handleSendText r s
  | KeyDown e r => fst (handleKeyDown e r s)
  end.

Definition run (actions : list Action) (s : State) : State :=
  fold_left (fun s a => act a s) actions s.

End Agent.

(** A list that was only added to at its end. *)
Definition grows_from {A : Type} (old new : list A) : Prop :=
  exists more, new = old ++ more.

Definition is_toggle (a : Action) : bool :=
  match a with
  | TapToggle _ => true
  | _ => false
  end.

Definition is_start (a : Action) : bool :=
  match a with
  | TapStart _ _ | TimerFires _ _ => true
  | _ => false
  end.


Definition is_get_user_media (c : Call) : bool :=
  match c with
  | GetUserMedia _ => true
  | _ => false
  end.


Definition is_start_session (c : Call) : bool :=
  match c with
  | StartSession _ => true
  | _ => false
  end.

End Controller.

(** ** The database module ([backend/db/mongo.js]) *)

Module Mongo.

Record Env : Type := {
  MONGO_URI : option jsstring;
  NODE_ENV : option jsstring
}.

(** The promise of [client.connect()]: which connection it is, in the
    order they are opened, and the URI it was opened with. *)
Record ClientPromise : Type := {
  serial : nat;
  uri : jsstring
}.

(** The [global] object and the connections opened so far. *)
Record Runtime : Type := {
  _mongoClientPromise : option ClientPromise;
  opened : list ClientPromise
}.

(** [new MongoClient(uri)] followed by [client.connect()]. *)
Definition connect (uri : jsstring) (rt : Runtime) : ClientPromise * Runtime :=
  let p := {| serial := length (opened rt); uri := uri |} in
  (p, {| _mongoClientPromise := _mongoClientPromise rt;
         opened := opened rt ++ [p] |}).

Inductive Loaded : Type :=
| Exported (clientPromise : ClientPromise)
| Thrown (message : jsstring).

(** One evaluation of the module. *)
Definition load (env : Env) (rt : Runtime) : Loaded * Runtime :=
  match MONGO_URI env with
  | None | Some [] => (Thrown (lit "MONGO_URI not set in .env"), rt)
  | Some ((_ :: _) as uri) =>
      if match NODE_ENV env with
         | Some mode => jsstring_eqb mode (lit "development")
         | None => false
         end
      then
        (* Prevent multiple connections during hot reload *)
        match _mongoClientPromise rt with
        | Some cached => (Exported cached, rt)
        | None =>
            let (p, rt) := connect uri rt in
            (Exported p, {| _mongoClientPromise := Some p;
                            opened := opened rt |})
        end
      else
        (* Production *)
        let (p, rt) := connect uri rt in (Exported p, rt)
  end.

(** Evaluations of the module one after the other, as on hot reloads; the
    result is what each one exported or threw. *)
Fixpoint reload (env : Env) (n : nat) (rt : Runtime) : list Loaded * Runtime :=
  match n with
  | O => ([], rt)
  | S n' =>
      let (l, rt) := load env rt in
      let (ls, rt) := reload env n' rt in
      (l :: ls, rt)
  end.

End Mongo.

(** ** Sample inputs *)

Module Samples.

Import Retrieval.

(** A response with the three markers in an order of its own. *)
Definition shuffled_text : jsstring :=
  lit "Here you go. [GROCERY_STORES] Aldi, 5 Elm St  [SNAP_OFFICE]  12 Main St [FOOD_PANTRIES] Pantry One ".

(** A response without the grocery marker. *)
Definition two_marker_text : jsstring :=
  lit "[SNAP_OFFICE] 12 Main St [FOOD_PANTRIES] Pantry One".

(** A response without markers. *)
Definition plain_text : jsstring :=
  lit " Sorry, nothing was found near you. ".

Definition chunk_with_url : GroundingChunk :=
  {| web := Some {| uri := Some (lit "https://example.org/snap");
                    title := Some (lit "County SNAP office") |};
     maps := None |}.

(** A citation record that has a title and no URL. *)
Definition chunk_without_url : GroundingChunk :=
  {| web := Some {| uri := None; title := Some (lit "Pantry One") |};
     maps := None |}.

Definition sample_response : Response.t :=
  {| Response.text := Some shuffled_text;
     Response.candidates :=
       Some [{| Response.groundingMetadata :=
                  Some {| Response.groundingChunks :=
                            Some [chunk_with_url; chunk_without_url] |} |}] |}.

Definition sample_service (_ : Request) : Promise Response.t :=
  Resolved sample_response.

Definition sample_app : App :=
  {| step := household;
     formData := {| state := lit "Ohio"; zipcode := lit "43004";
                    familySize := 3; income := 2100 |};
     loading := false;
     results := None;
     output := [] |}.

Import Session.

Definition agent_id : jsstring := lit "agent_01".

(** A voice session that is connected. *)
Definition connected_voice : State :=
  handleStartSession agent_id false (Resolved tt) (Resolved tt) initial.

(** Text mode, before any session. *)
Definition idle_text : State := setIsTextMode negb initial.

Definition denied : Promise unit := Rejected (lit "NotAllowedError").

(** Two events that reach the controller within one millisecond and draw
    the same random text. *)
Definition same_instant : Readings :=
  {| date_now := 1730000000000; random_base36 := lit "0.8f3k2m9qx1";
     new_date := 1730000000000 |}.

(** The same millisecond and another random text with the same first
    seven characters after the point. *)
Definition same_instant' : Readings :=
  {| date_now := 1730000000000; random_base36 := lit "0.8f3k2m9zc4";
     new_date := 1730000000000 |}.

Definition later_instant : Readings :=
  {| date_now := 1730000000250; random_base36 := lit "0.8f3k2m9qx1";
     new_date := 1730000000251 |}.

Definition last_instant : Readings :=
  {| date_now := 1730000000250; random_base36 := lit "0.c07tz5";
     new_date := 1730000000250 |}.

Definition agent_says : Arrival :=
  FromTransport {| message := lit "How many people live with you?";
                   source := lit "ai" |}.

Definition user_says : Arrival :=
  FromTransport {| message := lit "Three"; source := lit "user" |}.

Definition user_types : Arrival := FromTextBox (lit "  and a dog ").

End Samples.

(** ** Further sample inputs *)

Module MoreSamples.

Import Retrieval.

(** A response that repeats the office marker. *)
Definition repeated_text : jsstring :=
  lit "[SNAP_OFFICE] a [SNAP_OFFICE] b [FOOD_PANTRIES] c".

(** A response with the pantries marker only. *)
Definition pantries_only_text : jsstring :=
  lit "Nothing else nearby. [FOOD_PANTRIES] Pantry One".

Definition failing_service (_ : Request) : Promise Response.t :=
  Rejected (lit "503").

(** A response without candidates. *)
Definition bare_response : Response.t :=
  {| Response.text := Some pantries_only_text;
     Response.candidates := None |}.

Definition bare_service (_ : Request) : Promise Response.t :=
  Resolved bare_response.

Import Session Controller.

(** An event tagged in upper case. *)
Definition shouted_event : MessageEvent :=
  {| message := lit "Hello"; source := lit "AI" |}.

(** A connected text session with a draft in the text box. *)
Definition drafting : State :=
  setTextInput (lit "  do I qualify? ")
    (setIsTextMode negb Samples.connected_voice).

End MoreSamples.

(** * Properties *)

(** ** Eligibility *)

Module EligibilityFacts.

Import Eligibility.
Open Scope Q_scope.

Lemma fplBase_value : fplBase == 1255.
Proof. reflexivity. Qed.

Lemma fplIncrement_value : fplIncrement == 1345 / 3.
Proof. reflexivity. Qed.



(** The examples of the design: a single person earning 1200 a month is
    under the limit of 1631.5, a family of four earning 4000 is over the
    limit of 3380. *)
Example single_person_1200 :
  exists r, checkEligibility 1 1200 (lit "Texas") = Resolved r
            /\ isEligible r = true /\ limit r == 1631.5.
Proof. eexists. split; [reflexivity|]. split; reflexivity. Qed.

Example family_of_four_4000 :
  exists r, checkEligibility 4 4000 (lit "Texas") = Resolved r
            /\ isEligible r = false /\ limit r == 3380.
Proof. eexists. split; [reflexivity|]. split; reflexivity. Qed.



End EligibilityFacts.

(** ** Eligibility as it runs, on doubles *)

Module EligibilityIEEEFacts.

Import PrimFloat EligibilityIEEE.
#[local] Set Warnings "-inexact-float".
#[local] Open Scope float_scope.

(** The constants are the doubles 1255 and 448.33333333333331. *)
Example constants_as_doubles :
  fplBase = 1255 /\ fplIncrement = 448.33333333333331.
Proof. split; vm_compute; reflexivity. Qed.

(** The examples of the design: a single person earning 1200 a month is
    under the limit of 1631.5, a family of four earning 4000 is over the
    limit of 3380. *)
Example single_person_1200_double :
  checkEligibility 1 1200 (lit "Texas")
  = Resolved {| isEligible := true;
                limit := 1631.5;
                reason := IncomeBelowLimit 1200 1632 1 (lit "Texas") |}.
Proof. vm_compute. reflexivity. Qed.

Example family_of_four_4000_double :
  checkEligibility 4 4000 (lit "Texas")
  = Resolved {| isEligible := false;
                limit := 3380;
                reason := IncomeExceedsLimit 4000 3380 4 (lit "Texas") |}.
Proof. vm_compute. reflexivity. Qed.

(** For a family of two the limit is the double 2214.3333333333335, just
    above the exact 6643/3, and an income of that very double is eligible. *)
Example family_of_two_at_the_limit :
  checkEligibility 2 2214.3333333333335 (lit "Ohio")
  = Resolved {| isEligible := true;
                limit := 2214.3333333333335;
                reason := IncomeBelowLimit 2214.3333333333335 2214 2
                                           (lit "Ohio") |}.
Proof. vm_compute. reflexivity. Qed.

(** [Math.round] on halves and near them. *)
Example round_halves :
  map JsNumber.round [1631.5; 2.5; -2.5; 0.49999999999999994; -0.2; 1e300]
  = [1632; 3; -2; 0; -0; 1e300].
Proof. vm_compute. reflexivity. Qed.

(** C1: for a family size of at least 1 and a non-negative monthly income,
    [checkEligibility] resolves with
    [limit = (15060/12 + (familySize - 1) * 5380/12) * 1.3], computed on
    doubles as the code computes it, and [isEligible] is true exactly when
    the income is at most that limit. *)
Theorem checkEligibility_limit_and_verdict
        (familySize monthlyIncome : float) (state : jsstring) :
  (1 <=? familySize) = true -> (0 <=? monthlyIncome) = true ->
  exists r,
    checkEligibility familySize monthlyIncome state = Resolved r
    /\ limit r = (15060 / 12 + (familySize - 1) * (5380 / 12)) * 1.3
    /\ (isEligible r = true <-> (monthlyIncome <=? limit r) = true).
Proof.
  intros _ _. eexists. split; [reflexivity|]. cbn [limit isEligible].
  split; [reflexivity|]. split; intros H; exact H.
Qed.

Lemma checkEligibility_limit_and_verdict_witness :
  (1 <=? 2) = true /\ (0 <=? 2214.3333333333335) = true /\
  exists r,
    checkEligibility 2 2214.3333333333335 (lit "Ohio") = Resolved r
    /\ limit r = (15060 / 12 + (2 - 1) * (5380 / 12)) * 1.3
    /\ (isEligible r = true <-> (2214.3333333333335 <=? limit r) = true).
Proof.
  assert (H1 : (1 <=? 2) = true) by reflexivity.
  assert (H2 : (0 <=? 2214.3333333333335) = true) by reflexivity.
  split; [exact H1|]. split; [exact H2|].
  exact (checkEligibility_limit_and_verdict 2 2214.3333333333335
                                            (lit "Ohio") H1 H2).
Defined.

(** C2, as the code has it: a family size below 1 and a negative income
    are not rejected; the call resolves with a verdict. *)
Lemma checkEligibility_resolves_on_invalid_input :
  (0 <? 1) = true /\ (-5 <? 0) = true /\
  checkEligibility 0 (-5) (lit "Texas")
  = Resolved {| isEligible := true;
                limit := 1048.6666666666667;
                reason := IncomeBelowLimit (-5) 1049 0 (lit "Texas") |}.
Proof.
  split; [reflexivity|]. split; [reflexivity|]. vm_compute. reflexivity.
Qed.

(** C2, amended: [checkEligibility] validates nothing.  For every family
    size and income, also a family size below 1, a negative income or a
    value that is not a number, it resolves with the limit of the same
    formula at the value given (nothing is clamped) and with the verdict of
    the same comparison. *)
Theorem checkEligibility_never_rejects
        (familySize monthlyIncome : float) (state : jsstring) :
  exists r,
    checkEligibility familySize monthlyIncome state = Resolved r
    /\ limit r = (15060 / 12 + (familySize - 1) * (5380 / 12)) * 1.3
    /\ isEligible r = (monthlyIncome <=? limit r).
Proof.
  eexists. split; [reflexivity|]. split; reflexivity.
Qed.

End EligibilityIEEEFacts.

(** ** Section parsing and citations *)

Module RetrievalFacts.

Import Eligibility Retrieval.

(** *** Prefixes and occurrences *)

Lemma starts_with_app (p s : jsstring) : starts_with p (p ++ s) = true.
Proof.
  induction p as [|a p IH]; simpl; [reflexivity|].
  now rewrite N.eqb_refl, IH.
Qed.

Lemma starts_with_nil (p : jsstring) :
  (0 < length p)%nat -> starts_with p [] = false.
Proof. destruct p; simpl; [lia | reflexivity]. Qed.

Lemma skipn_length_app (A : Type) (l l' : list A) :
  skipn (length l) (l ++ l') = l'.
Proof. induction l; simpl; auto. Qed.

Lemma token_nonempty (m : Marker) : (0 < length (token m))%nat.
Proof. destruct m; vm_compute; lia. Qed.

Lemma occurs_at_bound (p s : jsstring) (k : nat) :
  (0 < length p)%nat -> occurs_at p s k = true -> (k < length s)%nat.
Proof.
  intros Hp Hk. destruct (Nat.lt_ge_cases k (length s)) as [|Hge]; [easy|].
  unfold occurs_at in Hk. rewrite skipn_all2 in Hk by exact Hge.
  rewrite starts_with_nil in Hk by exact Hp. discriminate.
Qed.

Lemma occurrences_spec (p s : jsstring) (k : nat) :
  In k (occurrences p s)
  <-> (k <= length s)%nat /\ occurs_at p s k = true.
Proof.
  unfold occurrences. rewrite filter_In, in_seq. intuition lia.
Qed.

Lemma occurs_at_app (p pre s : jsstring) :
  occurs_at p (pre ++ p ++ s) (length pre) = true.
Proof.
  unfold occurs_at. rewrite skipn_length_app. apply starts_with_app.
Qed.

Lemma occurs_once_unique (m : Marker) (t : jsstring) (j k : nat) :
  occurs_once m t ->
  occurs_at (token m) t j = true -> occurs_at (token m) t k = true -> j = k.
Proof.
  unfold occurs_once. intros Hone Hj Hk.
  assert (Ij : In j (occurrences (token m) t)).
  { apply occurrences_spec. split; [|exact Hj].
    apply Nat.lt_le_incl, (occurs_at_bound _ _ _ (token_nonempty m) Hj). }
  assert (Ik : In k (occurrences (token m) t)).
  { apply occurrences_spec. split; [|exact Hk].
    apply Nat.lt_le_incl, (occurs_at_bound _ _ _ (token_nonempty m) Hk). }
  destruct (occurrences (token m) t) as [|x [|y l]]; try discriminate.
  destruct Ij as [<-|[]], Ik as [<-|[]]. reflexivity.
Qed.

Lemma absent_never_occurs (m : Marker) (t : jsstring) (k : nat) :
  absent m t -> occurs_at (token m) t k = false.
Proof.
  unfold absent. intros Habs.
  destruct (occurs_at (token m) t k) eqn:Hk; [|reflexivity].
  assert (Ik : In k (occurrences (token m) t)).
  { apply occurrences_spec. split; [|exact Hk].
    apply Nat.lt_le_incl, (occurs_at_bound _ _ _ (token_nonempty m) Hk). }
  rewrite Habs in Ik. destruct Ik.
Qed.

(** *** The regular expression *)

(** The lazy run stops at the first position where the lookahead holds. *)
Lemma lazy_any_shortest (ahead : jsstring -> bool) (body rest : jsstring) :
  (forall k, (k < length body)%nat -> ahead (skipn k (body ++ rest)) = false) ->
  ahead rest = true ->
  lazy_any ahead (body ++ rest) = Some body.
Proof.
  induction body as [|c body IH]; intros Hno Hend.
  - destruct rest; simpl; now rewrite Hend.
  - pose proof (Hno 0%nat ltac:(simpl; lia)) as H0. simpl in H0.
    simpl. rewrite H0.
    rewrite IH; [reflexivity| |exact Hend].
    intros k Hk. apply (Hno (S k)). simpl. lia.
Qed.

(** Positions where the marker does not occur are passed over. *)
Lemma regexp_match_skip (marker : jsstring) (alts : list jsstring)
      (pre s : jsstring) :
  (forall k, (k < length pre)%nat -> occurs_at marker (pre ++ s) k = false) ->
  regexp_match marker alts (pre ++ s) = regexp_match marker alts s.
Proof.
  induction pre as [|c pre IH]; intros Hno; [reflexivity|].
  simpl. unfold match_at.
  pose proof (Hno 0%nat ltac:(simpl; lia)) as H0.
  unfold occurs_at in H0. simpl in H0. rewrite H0.
  apply IH. intros k Hk. apply (Hno (S k)). simpl. lia.
Qed.

Lemma regexp_match_here (marker : jsstring) (alts : list jsstring)
      (tail group1 : jsstring) :
  lazy_any (lookahead alts) tail = Some group1 ->
  regexp_match marker alts (marker ++ tail) = Some group1.
Proof.
  intros Hg.
  assert (Hat : match_at marker alts (marker ++ tail) = Some group1).
  { unfold match_at. now rewrite starts_with_app, skipn_length_app. }
  destruct (marker ++ tail); simpl; now rewrite Hat.
Qed.

Lemma regexp_match_none (marker : jsstring) (alts : list jsstring)
      (s : jsstring) :
  (forall k, occurs_at marker s k = false) ->
  regexp_match marker alts s = None.
Proof.
  induction s as [|c s IH]; intros Hno.
  - simpl. unfold match_at. now rewrite (Hno 0%nat : starts_with marker [] = false).
  - simpl. unfold match_at.
    rewrite (Hno 0%nat : starts_with marker (c :: s) = false).
    apply IH. intros k. exact (Hno (S k)).
Qed.

Lemma section_is_trimmed_group (m : Marker) (t : option jsstring)
      (chunks : list GroundingChunk) :
  section m (parsedResources {| SnapResources.text := t;
                                SnapResources.groundingChunks := chunks |})
  = trimmed_group
      (regexp_match (token m) (map token (others m))
                    match t with Some t => t | None => [] end).
Proof. destruct m; reflexivity. Qed.

Lemma lookahead_others (m m' : Marker) (s : jsstring) :
  m' <> m -> starts_with (token m') s = true ->
  lookahead (map token (others m)) s = true.
Proof.
  intros Hne Hs. unfold lookahead.
  destruct m, m'; try congruence; cbn [others map existsb];
    rewrite Hs; rewrite ?orb_true_r; reflexivity.
Qed.

Lemma lookahead_no_marker (m : Marker) (s : jsstring) :
  s <> [] -> (forall m', starts_with (token m') s = false) ->
  lookahead (map token (others m)) s = false.
Proof.
  intros Hne Hno. unfold lookahead.
  destruct m; cbn [others map existsb]; rewrite !Hno;
    (destruct s; [congruence | reflexivity]).
Qed.

(** The expression of a marker that occurs once captures what lies between
    the marker and the next marker or the end of the text. *)
Lemma regexp_match_section (m : Marker) (pre body rest : jsstring) :
  occurs_once m (pre ++ token m ++ body ++ rest) ->
  no_marker_before (length body) (body ++ rest) ->
  at_marker_or_end rest ->
  regexp_match (token m) (map token (others m))
               (pre ++ token m ++ body ++ rest) = Some body.
Proof.
  intros Hone Hno Hend.
  pose proof (occurs_at_app (token m) pre (body ++ rest)) as Hhere.
  rewrite regexp_match_skip.
  - apply regexp_match_here, lazy_any_shortest.
    + intros k Hk. apply lookahead_no_marker.
      * intros Hnil. apply (f_equal (@length N)) in Hnil.
        rewrite length_skipn, length_app in Hnil. simpl in Hnil. lia.
      * intros m'. exact (Hno m' k Hk).
    + destruct Hend as [->|[m' Hm']]; [unfold lookahead; apply orb_true_r|].
      destruct (Marker_eq_dec m' m) as [->|Hne];
        [|eapply lookahead_others; eassumption].
      exfalso.
      assert (Hthere : occurs_at (token m)
                         (pre ++ token m ++ body ++ rest)
                         (length pre + length (token m) + length body)%nat
                       = true).
      { unfold occurs_at.
        replace (pre ++ token m ++ body ++ rest)
          with ((pre ++ token m ++ body) ++ rest)
          by (now rewrite <- !app_assoc).
        replace (length pre + length (token m) + length body)%nat
          with (length (pre ++ token m ++ body))
          by (rewrite !length_app; lia).
        now rewrite skipn_length_app. }
      pose proof (occurs_once_unique _ _ _ _ Hone Hhere Hthere) as Heq.
      pose proof (token_nonempty m). lia.
  - intros k Hk.
    destruct (occurs_at (token m) (pre ++ token m ++ body ++ rest) k) eqn:E;
      [|reflexivity].
    pose proof (occurs_once_unique _ _ _ _ Hone Hhere E). lia.
Qed.

(** *** The parsed bundle *)

Example shuffled_text_sections :
  let r := parsedResources
             {| SnapResources.text := Some Samples.shuffled_text;
                SnapResources.groundingChunks := [] |} in
  office r = lit "12 Main St"
  /\ stores r = lit "Aldi, 5 Elm St"
  /\ pantries r = lit "Pantry One".
Proof. vm_compute. repeat split. Qed.

(** With a marker that occurs twice the section runs on to the next
    marker of another kind. *)
Example repeated_marker_section :
  office (parsedResources
            {| SnapResources.text :=
                 Some (lit "[SNAP_OFFICE] a [SNAP_OFFICE] b [FOOD_PANTRIES] c");
               SnapResources.groundingChunks := [] |})
  = lit "a [SNAP_OFFICE] b".
Proof. vm_compute. reflexivity. Qed.

(** C3: when the text contains each of the three markers exactly once, in
    any order, the section of a marker is the trimmed text between that
    marker and the next marker or the end of the text, whichever comes
    first; and the section of a marker that the text does not contain is
    the empty string. *)
Theorem sections_between_markers
        (t : jsstring) (chunks : list GroundingChunk) (m : Marker) :
  let bundle := parsedResources {| SnapResources.text := Some t;
                                   SnapResources.groundingChunks := chunks |} in
  (absent m t -> section m bundle = [])
  /\ (each_marker_once t ->
      forall pre body rest,
        t = pre ++ token m ++ body ++ rest ->
        no_marker_before (length body) (body ++ rest) ->
        at_marker_or_end rest ->
        section m bundle = trim body).
Proof.
  cbv zeta. rewrite section_is_trimmed_group. split.
  - intros Habs. rewrite regexp_match_none; [reflexivity|].
    intros k. now apply absent_never_occurs.
  - intros Hall pre body rest -> Hno Hend.
    rewrite regexp_match_section; auto.
Qed.

Lemma sections_between_markers_witness :
  (absent GROCERY_STORES Samples.two_marker_text
   /\ stores (parsedResources
                {| SnapResources.text := Some Samples.two_marker_text;
                   SnapResources.groundingChunks := [] |}) = [])
  /\ (each_marker_once Samples.shuffled_text
      /\ office (parsedResources
                   {| SnapResources.text := Some Samples.shuffled_text;
                      SnapResources.groundingChunks := [] |})
         = trim (lit "  12 Main St ")).
Proof.
  assert (Habs : absent GROCERY_STORES Samples.two_marker_text)
    by (vm_compute; reflexivity).
  assert (Hall : each_marker_once Samples.shuffled_text)
    by (intros m; destruct m; vm_compute; reflexivity).
  split; split; [exact Habs | | exact Hall |].
  - exact (proj1 (sections_between_markers Samples.two_marker_text []
                                           GROCERY_STORES) Habs).
  - apply (proj2 (sections_between_markers Samples.shuffled_text []
                                           SNAP_OFFICE) Hall
                 (lit "Here you go. [GROCERY_STORES] Aldi, 5 Elm St  ")
                 (lit "  12 Main St ")
                 (lit "[FOOD_PANTRIES] Pantry One ")).
    + vm_compute. reflexivity.
    + intros m k Hk. change (k < 13)%nat in Hk.
      destruct m; do 13 (destruct k as [|k]; [vm_compute; reflexivity|]); lia.
    + right. exists FOOD_PANTRIES. vm_compute. reflexivity.
Defined.

(** C4: when the text contains none of the three markers, the three
    sections of the bundle are empty and [fullText] is the text itself. *)
Theorem no_marker_fallback (t : jsstring) (chunks : list GroundingChunk) :
  (forall m, absent m t) ->
  parsedResources {| SnapResources.text := Some t;
                     SnapResources.groundingChunks := chunks |}
  = {| office := []; stores := []; pantries := []; fullText := t;
       groundingChunks := chunks |}.
Proof.
  intros Habs. unfold parsedResources, officeMatch, storesMatch, pantriesMatch.
  cbn [SnapResources.text SnapResources.groundingChunks].
  rewrite !regexp_match_none; [reflexivity| | |];
    intros k; now apply absent_never_occurs.
Qed.

Lemma no_marker_fallback_witness :
  (forall m, absent m Samples.plain_text)
  /\ parsedResources {| SnapResources.text := Some Samples.plain_text;
                        SnapResources.groundingChunks := [] |}
     = {| office := []; stores := []; pantries := [];
          fullText := Samples.plain_text; groundingChunks := [] |}.
Proof.
  assert (Habs : forall m, absent m Samples.plain_text)
    by (intros m; destruct m; vm_compute; reflexivity).
  split; [exact Habs|].
  exact (no_marker_fallback Samples.plain_text [] Habs).
Defined.

(** C10: whatever the sections are, [fullText] of the bundle is the text
    of the response, unchanged. *)
Theorem fullText_is_response_text
        (t : jsstring) (chunks : list GroundingChunk) :
  fullText (parsedResources {| SnapResources.text := Some t;
                               SnapResources.groundingChunks := chunks |})
  = t.
Proof. reflexivity. Qed.

(** *** Citations *)

Lemma verifiedSources_spec (r : ParsedResources) (w : WebChunk) :
  In w (verifiedSources r)
  <-> exists chunk, In chunk (groundingChunks r) /\ web chunk = Some w.
Proof.
  unfold verifiedSources. rewrite in_flat_map. split.
  - intros [chunk [Hin Hw]]. exists chunk. split; [exact Hin|].
    destruct (web chunk) as [w'|]; [|destruct Hw].
    destruct Hw as [->|[]]. reflexivity.
  - intros [chunk [Hin Hw]]. exists chunk. split; [exact Hin|].
    rewrite Hw. now left.
Qed.

(** C6, as the code has it: a citation record without a source URL stays
    in the bundle. *)
Lemma bundle_keeps_chunk_without_url :
  source_url Samples.chunk_without_url = None
  /\ exists r,
       results (fetchResults Samples.sample_service Samples.sample_app)
       = Some r
       /\ groundingChunks (resources r)
          = [Samples.chunk_with_url; Samples.chunk_without_url]
       /\ groundingChunks (resources r)
          <> filter has_source_url
                    [Samples.chunk_with_url; Samples.chunk_without_url].
Proof.
  split; [reflexivity|]. eexists. split; [reflexivity|].
  split; [reflexivity|]. vm_compute. discriminate.
Qed.

(** C6, amended: the citations of the bundle are the citation records
    that the service returned for the first candidate, in the same order
    and unmodified, and none is removed; the results view links those that
    have a [web] part. *)
Theorem citations_pass_through
        (generateContent : Request -> Promise Response.t) (a : App)
        (response : Response.t) (candidate : Response.Candidate)
        (more : list Response.Candidate)
        (metadata : Response.GroundingMetadata)
        (chunks : list GroundingChunk) :
  generateContent
    {| model := lit "gemini-2.5-flash";
       contents := prompt (zipcode (formData a)) (state (formData a));
       tools := [{| googleMaps := true |}] |} = Resolved response ->
  Response.candidates response = Some (candidate :: more) ->
  Response.groundingMetadata candidate = Some metadata ->
  Response.groundingChunks metadata = Some chunks ->
  exists r,
    results (fetchResults generateContent a) = Some r
    /\ groundingChunks (resources r) = chunks
    /\ forall w, In w (verifiedSources (resources r))
                 <-> exists chunk, In chunk chunks /\ web chunk = Some w.
Proof.
  intros Hresp Hcand Hmeta Hchunks.
  assert (Hce : chunks_or_empty response = chunks).
  { unfold chunks_or_empty. now rewrite Hcand, Hmeta, Hchunks. }
  unfold fetchResults, getSnapResources.
  cbn [setLoading formData checkEligibility]. rewrite Hresp.
  cbn [fold_left setStep setResults results]. eexists.
  split; [reflexivity|]. split.
  - cbn. exact Hce.
  - intros w. rewrite verifiedSources_spec. cbn. rewrite Hce. reflexivity.
Qed.

Lemma citations_pass_through_witness :
  exists r,
    results (fetchResults Samples.sample_service Samples.sample_app) = Some r
    /\ groundingChunks (resources r)
       = [Samples.chunk_with_url; Samples.chunk_without_url]
    /\ forall w, In w (verifiedSources (resources r))
                 <-> exists chunk,
                       In chunk [Samples.chunk_with_url;
                                 Samples.chunk_without_url]
                       /\ web chunk = Some w.
Proof.
  exact (citations_pass_through
           Samples.sample_service Samples.sample_app Samples.sample_response
           _ _ _ _ eq_refl eq_refl eq_refl eq_refl).
Defined.

End RetrievalFacts.

(** ** The session controller *)

Module SessionFacts.

Import Session.

(** *** Starting a session *)

Lemma calls_call (c : Call) (s : State) : calls (call c s) = calls s ++ [c].
Proof. reflexivity. Qed.

Lemma handleStartSession_calls
      (AGENT_ID : jsstring) (mode : bool)
      (permission connection : Promise unit) (s : State) :
  exists rest,
    calls (handleStartSession AGENT_ID mode permission connection s)
    = calls s ++ ConsoleLog (lit "Starting session...")
                 :: GetUserMedia true :: rest.
Proof.
  destruct permission as [[]|err], connection as [[]|err']; eexists;
    unfold handleStartSession; cbn [calls call transport_status];
    rewrite <- ?app_assoc; cbn [app]; reflexivity.
Qed.


(** C7, as the code has it: in text mode the microphone is requested all
    the same, and a refusal keeps the text session from starting. *)
Lemma text_mode_requests_microphone :
  isTextMode Samples.idle_text = true
  /\ In (GetUserMedia true)
        (calls (handleStartSession Samples.agent_id true (Resolved tt)
                                   (Resolved tt) Samples.idle_text))
  /\ calls (handleStartSession Samples.agent_id true Samples.denied
                               (Resolved tt) Samples.idle_text)
     = [ConsoleLog (lit "Starting session...");
        GetUserMedia true;
        ConsoleError (lit "Failed to start session:")
                     (lit "NotAllowedError")].
Proof.
  split; [reflexivity|]. split; [|reflexivity].
  right. left. reflexivity.
Qed.

(** C7, amended: [handleStartSession] requests audio capture first in
    voice mode and in text mode alike.  When the request is refused or
    unavailable, no session is started: the only further call is the line
    written to the error console, and the status, the mode, the log and
    the timers are what they were. *)
Theorem start_requests_permission_in_every_mode (AGENT_ID : jsstring) :
  (forall (mode : bool) (permission connection : Promise unit) (s : State),
      exists rest,
        calls (handleStartSession AGENT_ID mode permission connection s)
        = calls s ++ ConsoleLog (lit "Starting session...")
                     :: GetUserMedia true :: rest)
  /\ (forall (mode : bool) (err : jsstring) (connection : Promise unit)
             (s : State),
         let s' := handleStartSession AGENT_ID mode (Rejected err)
                                      connection s in
         calls s' = calls s ++ [ConsoleLog (lit "Starting session...");
                                GetUserMedia true;
                                ConsoleError (lit "Failed to start session:")
                                             err]
         /\ status s' = status s
         /\ isTextMode s' = isTextMode s
         /\ messages s' = messages s
         /\ timers s' = timers s).
Proof.
  split.
  - intros mode permission connection s. apply handleStartSession_calls.
  - intros mode err connection s. cbv zeta. unfold handleStartSession.
    cbn [calls call status isTextMode messages timers].
    rewrite <- !app_assoc. repeat split.
Qed.

(** *** Toggling the mode *)

Lemma handleEndSession_timers (ended : Promise unit) (s : State) :
  timers (handleEndSession ended s) = timers s.
Proof. destruct ended; reflexivity. Qed.

Lemma handleEndSession_isTextMode (ended : Promise unit) (s : State) :
  isTextMode (handleEndSession ended s) = isTextMode s.
Proof. destruct ended; reflexivity. Qed.

(** A toggle never removes a pending timer. *)
Lemma handleToggleMode_keeps_timers (ended : Promise unit) (s : State) :
  exists added, timers (handleToggleMode ended s) = timers s ++ added.
Proof.
  unfold handleToggleMode. destruct (isConnected s).
  - eexists. cbn [setTimeout call with_timers setIsTextMode timers].
    rewrite handleEndSession_timers. reflexivity.
  - exists []. cbn [setIsTextMode timers]. now rewrite app_nil_r.
Qed.

Lemma handleToggleMode_connected (ended : Promise unit) (s : State) :
  status s = connected ->
  handleToggleMode ended s
  = setTimeout {| delay := 300; captured_isTextMode := isTextMode s |}
      (setIsTextMode negb (handleEndSession ended s)).
Proof.
  intros Hst. unfold handleToggleMode, isConnected. now rewrite Hst.
Qed.





(** *** The message log *)

Lemma jsstring_eqb_eq (a b : jsstring) : jsstring_eqb a b = true <-> a = b.
Proof.
  unfold jsstring_eqb. destruct (list_eq_dec N.eq_dec a b); split;
    congruence.
Qed.

Lemma lit_inj (a b : string) : lit a = lit b -> a = b.
Proof.
  unfold lit. intros H.
  rewrite <- (string_of_list_ascii_of_string a).
  rewrite <- (string_of_list_ascii_of_string b). f_equal.
  revert H. generalize (list_ascii_of_string a) (list_ascii_of_string b).
  induction l as [|x l IH]; intros [|y l'] H; try discriminate;
    [reflexivity|].
  simpl in H. injection H as Hxy Hl. f_equal; [|now apply IH].
  rewrite <- (ascii_N_embedding x), <- (ascii_N_embedding y). now f_equal.
Qed.

Lemma decimal_inj (m n : N) : decimal m = decimal n -> m = n.
Proof.
  unfold decimal. intros H. apply lit_inj in H.
  assert (Hu : N.to_uint m = N.to_uint n).
  { pose proof (NilEmpty.usu (N.to_uint m)) as Hm.
    pose proof (NilEmpty.usu (N.to_uint n)) as Hn.
    rewrite H in Hm. congruence. }
  rewrite <- (DecimalN.Unsigned.of_to m), <- (DecimalN.Unsigned.of_to n).
  now f_equal.
Qed.

(** The decimal text holds digits only, so no hyphen. *)
Lemma decimal_no_hyphen (n : N) : ~ In 45%N (decimal n).
Proof.
  unfold decimal. generalize (N.to_uint n). intros d.
  induction d; simpl; [tauto|..]; intros [H|H];
    solve [discriminate H | exact (IHd H)].
Qed.

(** A hyphen after hyphen-free text splits a string in one way only. *)
Lemma split_at_hyphen (d1 d2 s1 s2 : jsstring) :
  ~ In 45%N d1 -> ~ In 45%N d2 ->
  d1 ++ 45%N :: s1 = d2 ++ 45%N :: s2 -> d1 = d2 /\ s1 = s2.
Proof.
  revert d2. induction d1 as [|a d1 IH]; intros [|b d2] H1 H2 H; simpl in *.
  - injection H as ->. split; reflexivity.
  - injection H as <- _. tauto.
  - injection H as -> _. tauto.
  - injection H as -> H. destruct (IH d2) as [-> ->]; auto.
Qed.

Lemma id_of_draw_inj (r r' : Readings) :
  decimal (date_now r) ++ lit "-" ++ slice 2 9 (random_base36 r)
  = decimal (date_now r') ++ lit "-" ++ slice 2 9 (random_base36 r') ->
  draw r = draw r'.
Proof.
  change (lit "-") with [45%N]. cbn [app]. intros H.
  apply split_at_hyphen in H; auto using decimal_no_hyphen.
  destruct H as [Hd Hs]. apply decimal_inj in Hd. unfold draw. congruence.
Qed.

Lemma ingest_logged (a : Arrival) (r : Readings) (s : State) :
  ingestible s a ->
  messages (ingest a r s) = messages s ++ [logged (a, r)]
  /\ status (ingest a r s) = status s.
Proof.
  destruct a as [[msg src]|typed]; cbn [ingestible ingest source].
  - unfold onMessage, logged, arrival_role, arrival_text.
    cbn [source message fst snd]. intros [->| ->].
    + split; reflexivity.
    + split; reflexivity.
  - intros [Hne Hst]. unfold handleSendText, isConnected.
    cbn [setTextInput textInput status]. rewrite Hst.
    unfold logged, arrival_role, arrival_text. cbn [fst snd].
    destruct (trim typed) as [|c cs] eqn:E; [congruence|].
    cbn [negb]. split; [reflexivity|]. cbn. exact Hst.
Qed.

Lemma ingestible_status (s s' : State) (a : Arrival) :
  status s' = status s -> ingestible s a -> ingestible s' a.
Proof.
  destruct a; cbn [ingestible]; intros Hs H; [exact H|].
  now rewrite Hs.
Qed.

Lemma ingest_all_logged (arrivals : list (Arrival * Readings)) (s : State) :
  Forall (fun ar => ingestible s (fst ar)) arrivals ->
  messages (ingest_all arrivals s) = messages s ++ map logged arrivals.
Proof.
  revert s. induction arrivals as [|[a r] l IH]; intros s Hall.
  - cbn. now rewrite app_nil_r.
  - inversion Hall as [|x l' Ha Hl]; subst. cbn [fst] in Ha.
    destruct (ingest_logged a r s Ha) as [Hm Hs].
    change (ingest_all ((a, r) :: l) s) with (ingest_all l (ingest a r s)).
    rewrite IH.
    + rewrite Hm, <- app_assoc. reflexivity.
    + eapply Forall_impl; [|exact Hl].
      intros ar. apply ingestible_status. exact Hs.
Qed.

(** An event whose source is neither ['ai'] nor ['user'] is not logged. *)
Example other_source_is_dropped :
  messages (onMessage {| message := lit "ping"; source := lit "system" |}
                      Samples.same_instant initial) = [].
Proof. reflexivity. Qed.

(** C9, as the code has it: two messages logged in the same millisecond
    whose random texts agree on the seven characters kept get the same
    identifier. *)
Lemma identifiers_can_coincide :
  let s := ingest_all [(Samples.agent_says, Samples.same_instant);
                       (Samples.user_says, Samples.same_instant')]
                      Samples.connected_voice in
  random_base36 Samples.same_instant <> random_base36 Samples.same_instant'
  /\ map id (messages s)
     = [lit "1730000000000-8f3k2m9"; lit "1730000000000-8f3k2m9"]
  /\ ~ NoDup (map id (messages s)).
Proof.
  cbv zeta. split; [vm_compute; discriminate|]. split; [reflexivity|].
  intros H. vm_compute in H. inversion H as [|x l Hin _]; subst.
  apply Hin. left. reflexivity.
Qed.

(** C9, amended: for any sequence of N arrivals that are user or agent
    messages (transport events tagged ['ai'] or ['user'], non-blank
    submissions of the text box while connected), the log grows by exactly
    N messages, in arrival order, each with the role and text of its
    arrival and with the timestamp read at append time; no timestamp of the
    source is used.  The identifier is built at append time from the clock
    reading and seven characters of a random text: identifiers are pairwise
    distinct whenever those pairs are. *)
Theorem message_log_append_order
        (arrivals : list (Arrival * Readings)) (s : State) :
  Forall (fun ar => ingestible s (fst ar)) arrivals ->
  exists appended,
    messages (ingest_all arrivals s) = messages s ++ appended
    /\ length appended = length arrivals
    /\ map role appended = map (fun ar => arrival_role (fst ar)) arrivals
    /\ map text appended = map (fun ar => arrival_text (fst ar)) arrivals
    /\ map timestamp appended = map (fun ar => new_date (snd ar)) arrivals
    /\ (NoDup (map (fun ar => draw (snd ar)) arrivals) ->
        NoDup (map id appended)).
Proof.
  intros Hall. exists (map logged arrivals).
  split; [now apply ingest_all_logged|].
  split; [apply length_map|].
  rewrite !map_map. do 3 (split; [reflexivity|]).
  clear Hall. induction arrivals as [|[a r] l IH]; intros Hnd; cbn [map].
  - constructor.
  - cbn [map snd] in Hnd. inversion Hnd as [|x l' Hnotin Hnd']; subst.
    constructor; [|now apply IH].
    intros Hin. apply Hnotin. apply in_map_iff in Hin.
    destruct Hin as [[a' r'] [Heq Hin]]. apply in_map_iff.
    exists (a', r'). split; [|exact Hin].
    unfold logged in Heq. cbn [id snd] in Heq. cbn [snd].
    now apply id_of_draw_inj.
Qed.

Lemma message_log_append_order_witness :
  exists appended,
    messages (ingest_all [(Samples.agent_says, Samples.same_instant);
                          (Samples.user_says, Samples.later_instant);
                          (Samples.user_types, Samples.last_instant)]
                         Samples.connected_voice)
    = messages Samples.connected_voice ++ appended
    /\ length appended = 3%nat
    /\ map role appended = [agent; user; user]
    /\ map text appended
       = [lit "How many people live with you?"; lit "Three"; lit "and a dog"]
    /\ map timestamp appended
       = [1730000000000; 1730000000251; 1730000000250]%N
    /\ NoDup (map id appended).
Proof.
  destruct (message_log_append_order
              [(Samples.agent_says, Samples.same_instant);
               (Samples.user_says, Samples.later_instant);
               (Samples.user_types, Samples.last_instant)]
              Samples.connected_voice)
    as [appended (Hlog & Hlen & Hrole & Htext & Htime & Hid)].
  - repeat constructor; vm_compute; discriminate.
  - exists appended. repeat split; try assumption.
    apply Hid. repeat constructor; vm_compute; intuition discriminate.
Defined.

End SessionFacts.

(** * Further properties *)

(** ** Eligibility: how the verdict moves with the inputs *)

Module EligibilityMore.

Import Eligibility.
Open Scope Q_scope.





End EligibilityMore.

(** ** Parsing: what a section can and cannot be *)

Module ParsingMore.

Import Eligibility Retrieval RetrievalFacts.

(** *** [trim] *)

Lemma trimStart_suffix (s : jsstring) : exists w, s = w ++ trimStart s.
Proof.
  induction s as [|c s [w IH]]; [now exists []|].
  simpl. destruct (is_whitespace c).
  - exists (c :: w). simpl. now rewrite <- IH.
  - now exists [].
Qed.

Lemma trimStart_head (s u : jsstring) (c : N) :
  trimStart s = c :: u -> is_whitespace c = false.
Proof.
  induction s as [|d s IH]; simpl; [discriminate|].
  destruct (is_whitespace d) eqn:E; [exact IH|].
  intros H. injection H as <- _. exact E.
Qed.

Lemma trimStart_fixed (s : jsstring) :
  match s with [] => True | c :: _ => is_whitespace c = false end ->
  trimStart s = s.
Proof. destruct s as [|c s]; simpl; [reflexivity|]. now intros ->. Qed.

Lemma trimEnd_prefix (s : jsstring) : exists w, s = trimEnd s ++ w.
Proof.
  unfold trimEnd. destruct (trimStart_suffix (rev s)) as [w Hw].
  exists (rev w). rewrite <- rev_app_distr, <- Hw. now rewrite rev_involutive.
Qed.

Lemma trimEnd_last (s : jsstring) :
  match rev (trimEnd s) with
  | [] => True
  | c :: _ => is_whitespace c = false
  end.
Proof.
  unfold trimEnd. rewrite rev_involutive.
  destruct (trimStart (rev s)) as [|c u] eqn:E; [exact I|].
  exact (trimStart_head _ _ _ E).
Qed.

Lemma trim_head (s : jsstring) :
  match trim s with [] => True | c :: _ => is_whitespace c = false end.
Proof.
  unfold trim. destruct (trimEnd_prefix (trimStart s)) as [w Hw].
  destruct (trimEnd (trimStart s)) as [|c u]; [exact I|].
  simpl in Hw. exact (trimStart_head _ _ _ Hw).
Qed.

Lemma trim_last (s : jsstring) :
  match rev (trim s) with [] => True | c :: _ => is_whitespace c = false end.
Proof. unfold trim. apply trimEnd_last. Qed.

Lemma trim_infix (s : jsstring) : exists a b, s = a ++ trim s ++ b.
Proof.
  unfold trim. destruct (trimStart_suffix s) as [a Ha].
  destruct (trimEnd_prefix (trimStart s)) as [b Hb].
  exists a, b. now rewrite <- Hb.
Qed.

Lemma trim_idempotent (s : jsstring) : trim (trim s) = trim s.
Proof.
  pose proof (trim_head s) as Hh. pose proof (trim_last s) as Hl.
  unfold trim at 1. rewrite (trimStart_fixed _ Hh).
  unfold trimEnd. rewrite (trimStart_fixed _ Hl). apply rev_involutive.
Qed.

(** *** What a match means *)

Lemma starts_with_split (p s : jsstring) :
  starts_with p s = true -> s = p ++ skipn (length p) s.
Proof.
  revert s. induction p as [|a p IH]; intros [|b s]; simpl;
    try reflexivity; try discriminate.
  intros H. apply andb_prop in H. destruct H as [Hab Hp].
  apply N.eqb_eq in Hab. subst b. f_equal. now apply IH.
Qed.

Lemma lazy_any_inv (ahead : jsstring -> bool) (s g : jsstring) :
  lazy_any ahead s = Some g ->
  exists rest,
    s = g ++ rest /\ ahead rest = true
    /\ forall k, (k < length g)%nat -> ahead (skipn k s) = false.
Proof.
  revert g. induction s as [|c s IH]; intros g; simpl.
  - destruct (ahead []) eqn:E; [|discriminate].
    intros H. injection H as <-. exists []. repeat split; auto.
    simpl. intros k Hk. lia.
  - destruct (ahead (c :: s)) eqn:E.
    + intros H. injection H as <-. exists (c :: s). repeat split; auto.
      simpl. intros k Hk. lia.
    + destruct (lazy_any ahead s) as [g'|] eqn:Eg; [|discriminate].
      simpl. intros H. injection H as <-.
      destruct (IH g' eq_refl) as [rest [Hs [Hr Hno]]].
      exists rest. split; [simpl; now f_equal|]. split; [exact Hr|].
      intros [|k] Hk; [exact E|]. simpl. apply Hno. simpl in Hk. lia.
Qed.

(** The expression ends every section at the end of the text at the
    latest, so the lazy run always succeeds. *)
Lemma lazy_any_lookahead_total (alts : list jsstring) (s : jsstring) :
  lazy_any (lookahead alts) s <> None.
Proof.
  induction s as [|c s IH]; simpl.
  - unfold lookahead. now rewrite orb_true_r.
  - destruct (lookahead alts (c :: s)); [discriminate|].
    destruct (lazy_any (lookahead alts) s); [discriminate|]. congruence.
Qed.

Lemma regexp_match_inv (marker : jsstring) (alts : list jsstring)
      (t g : jsstring) :
  regexp_match marker alts t = Some g ->
  exists pre rest,
    t = pre ++ marker ++ g ++ rest
    /\ (forall k, (k < length pre)%nat -> occurs_at marker t k = false)
    /\ lookahead alts rest = true
    /\ forall k, (k < length g)%nat ->
                 lookahead alts (skipn k (g ++ rest)) = false.
Proof.
  induction t as [|c t IH].
  - simpl. unfold match_at.
    destruct (starts_with marker []) eqn:Es; [|discriminate].
    destruct (lazy_any (lookahead alts) (skipn (length marker) []))
      as [g0|] eqn:Eg; [|discriminate].
    intros H. injection H as ->.
    destruct (lazy_any_inv _ _ _ Eg) as [rest [Hs [Hr Hno]]].
    exists [], rest. split.
    { simpl. rewrite <- Hs. now apply starts_with_split. }
    split; [simpl; intros; lia|]. split; [exact Hr|].
    intros k Hk. rewrite <- Hs. now apply Hno.
  - simpl. unfold match_at at 1.
    destruct (starts_with marker (c :: t)) eqn:Es.
    + destruct (lazy_any (lookahead alts) (skipn (length marker) (c :: t)))
        as [g0|] eqn:Eg.
      * intros H. injection H as ->.
        destruct (lazy_any_inv _ _ _ Eg) as [rest [Hs [Hr Hno]]].
        exists [], rest. split.
        { simpl. rewrite <- Hs. now apply starts_with_split. }
        split; [simpl; intros; lia|]. split; [exact Hr|].
        intros k Hk. rewrite <- Hs. now apply Hno.
      * exfalso. exact (lazy_any_lookahead_total _ _ Eg).
    + intros H. destruct (IH H) as [pre [rest [Ht [Hpre [Hr Hno]]]]].
      exists (c :: pre), rest. split; [simpl; now f_equal|].
      split; [|split; assumption].
      intros [|k] Hk; [exact Es|].
      unfold occurs_at. simpl. apply Hpre. simpl in Hk. lia.
Qed.

Lemma occurs_at_infix (p a s b : jsstring) (k : nat) :
  (0 < length p)%nat -> occurs_at p s k = true ->
  occurs_at p (a ++ s ++ b) (length a + k) = true.
Proof.
  intros Hp Hk. pose proof (occurs_at_bound p s k Hp Hk) as Hlt.
  unfold occurs_at in Hk. apply starts_with_split in Hk.
  rewrite <- (firstn_skipn k s) at 1. rewrite Hk.
  replace (a ++ (firstn k s ++ p ++ skipn (length p) (skipn k s)) ++ b)
    with ((a ++ firstn k s) ++ p ++ (skipn (length p) (skipn k s) ++ b))
    by (now rewrite <- !app_assoc).
  replace (length a + k)%nat with (length (a ++ firstn k s)).
  - apply occurs_at_app.
  - rewrite length_app, length_firstn. lia.
Qed.

Lemma never_occurs_absent (p s : jsstring) :
  (forall k, occurs_at p s k = false) -> occurrences p s = [].
Proof.
  intros H. unfold occurrences.
  induction (seq 0 (S (length s))) as [|k l IH]; [reflexivity|].
  simpl. now rewrite H.
Qed.

Lemma lookahead_no_other (m : Marker) (s : jsstring) :
  s <> [] ->
  (forall m', m' <> m -> starts_with (token m') s = false) ->
  lookahead (map token (others m)) s = false.
Proof.
  intros Hne Hno. unfold lookahead.
  destruct m; cbn [others map existsb];
    rewrite !Hno by discriminate;
    (destruct s; [congruence | reflexivity]).
Qed.

Lemma others_spec (m m' : Marker) : In m' (others m) <-> m' <> m.
Proof.
  destruct m, m'; cbn [others In]; split; intros H;
    try congruence; try tauto;
    try (destruct H as [H|[H|[]]]; discriminate).
Qed.

Lemma starts_with_app_r (p s s' : jsstring) :
  starts_with p s = true -> starts_with p (s ++ s') = true.
Proof.
  revert s. induction p as [|a p IH]; intros [|b s]; simpl;
    try reflexivity; try discriminate.
  intros H. apply andb_prop in H. destruct H as [-> Hp]. simpl. now apply IH.
Qed.

Lemma occurs_at_app_r (p s s' : jsstring) (k : nat) :
  (0 < length p)%nat -> occurs_at p s k = true ->
  occurs_at p (s ++ s') k = true.
Proof.
  intros Hp Hk. pose proof (occurs_at_bound p s k Hp Hk) as Hlt.
  unfold occurs_at in *. rewrite skipn_app.
  replace (k - length s)%nat with 0%nat by lia. simpl.
  now apply starts_with_app_r.
Qed.

(** *** The sections of any response *)

(** X4: whatever the response text is, each section of the bundle is a
    contiguous part of that text: the parser cuts, it never adds or
    rewrites. *)
Theorem sections_are_parts_of_text
        (t : jsstring) (chunks : list GroundingChunk) (m : Marker) :
  exists before after,
    t = before
        ++ section m (parsedResources
                        {| SnapResources.text := Some t;
                           SnapResources.groundingChunks := chunks |})
        ++ after.
Proof.
  rewrite section_is_trimmed_group.
  destruct (regexp_match (token m) (map token (others m)) t) as [g|] eqn:E.
  - destruct (regexp_match_inv _ _ _ _ E) as [pre [rest [Ht _]]].
    destruct (trim_infix g) as [a [b Hg]].
    exists (pre ++ token m ++ a), (b ++ rest). cbn [trimmed_group].
    rewrite Ht at 1. rewrite Hg at 1. now rewrite <- !app_assoc.
  - exists [], t. reflexivity.
Qed.

(** X5: whatever the response text is, the section of a marker contains
    neither of the two other markers. *)
Theorem sections_free_of_other_markers
        (t : jsstring) (chunks : list GroundingChunk) (m : Marker) :
  Forall (fun m' =>
            absent m' (section m (parsedResources
                                    {| SnapResources.text := Some t;
                                       SnapResources.groundingChunks :=
                                         chunks |})))
         (others m).
Proof.
  apply Forall_forall. intros m' Hin. apply others_spec in Hin.
  rewrite section_is_trimmed_group. unfold absent.
  apply never_occurs_absent. intros k.
  destruct (regexp_match (token m) (map token (others m)) t) as [g|] eqn:E;
    cbn [trimmed_group].
  - destruct (occurs_at (token m') (trim g) k) eqn:Hk; [|reflexivity].
    exfalso.
    destruct (regexp_match_inv _ _ _ _ E) as [pre [rest [_ [_ [_ Hno]]]]].
    destruct (trim_infix g) as [a [b Hg]].
    pose proof (occurs_at_infix (token m') a (trim g) b k
                                (token_nonempty m') Hk) as Hin_g.
    rewrite <- Hg in Hin_g.
    pose proof (occurs_at_bound _ _ _ (token_nonempty m') Hin_g) as Hlt.
    pose proof (occurs_at_app_r _ _ rest _ (token_nonempty m') Hin_g) as Hall.
    specialize (Hno _ Hlt).
    rewrite (lookahead_others m m' _ Hin Hall) in Hno. discriminate.
  - unfold occurs_at. rewrite skipn_nil.
    apply starts_with_nil, token_nonempty.
Qed.

(** X6: a section never begins or ends with white space: trimming it again
    changes nothing, and its first and last code units are not white
    space. *)
Theorem sections_are_trimmed
        (t : jsstring) (chunks : list GroundingChunk) (m : Marker) :
  let s := section m (parsedResources
                        {| SnapResources.text := Some t;
                           SnapResources.groundingChunks := chunks |}) in
  trim s = s
  /\ match s with [] => True | c :: _ => is_whitespace c = false end
  /\ match rev s with [] => True | c :: _ => is_whitespace c = false end.
Proof.
  cbv zeta. rewrite section_is_trimmed_group.
  destruct (regexp_match (token m) (map token (others m)) t) as [g|];
    cbn [trimmed_group].
  - split; [apply trim_idempotent|]. split; [apply trim_head|apply trim_last].
  - repeat split.
Qed.

(** X7: the section of a marker starts after the first occurrence of that
    marker and runs to the next occurrence of one of the two other markers,
    or to the end of the text; a repetition of its own marker does not end
    it. *)
Theorem section_from_first_occurrence
        (t : jsstring) (chunks : list GroundingChunk) (m : Marker)
        (pre body rest : jsstring) :
  t = pre ++ token m ++ body ++ rest ->
  (forall k, (k < length pre)%nat -> occurs_at (token m) t k = false) ->
  (forall m' k, m' <> m -> (k < length body)%nat ->
                occurs_at (token m') (body ++ rest) k = false) ->
  (rest = [] \/ exists m', m' <> m /\ starts_with (token m') rest = true) ->
  section m (parsedResources {| SnapResources.text := Some t;
                                SnapResources.groundingChunks := chunks |})
  = trim body.
Proof.
  intros -> Hpre Hbody Hrest. rewrite section_is_trimmed_group.
  rewrite regexp_match_skip by exact Hpre.
  rewrite (regexp_match_here _ _ _ body); [reflexivity|].
  apply lazy_any_shortest.
  - intros k Hk. apply lookahead_no_other.
    + intros Hnil. apply (f_equal (@length N)) in Hnil.
      rewrite length_skipn, length_app in Hnil. simpl in Hnil. lia.
    + intros m' Hne. now apply Hbody.
  - destruct Hrest as [->|[m' [Hne Hm']]].
    + unfold lookahead. apply orb_true_r.
    + now apply (lookahead_others m m').
Qed.

Lemma section_from_first_occurrence_witness :
  section SNAP_OFFICE
          (parsedResources
             {| SnapResources.text := Some MoreSamples.repeated_text;
                SnapResources.groundingChunks := [] |})
  = trim (lit " a [SNAP_OFFICE] b ").
Proof.
  apply (section_from_first_occurrence
           MoreSamples.repeated_text [] SNAP_OFFICE
           [] (lit " a [SNAP_OFFICE] b ") (lit "[FOOD_PANTRIES] c")).
  - vm_compute. reflexivity.
  - intros k Hk. simpl in Hk. lia.
  - intros m' k Hne Hk. change (k < 19)%nat in Hk.
    destruct m'; [congruence| |];
      do 19 (destruct k as [|k]; [vm_compute; reflexivity|]); lia.
  - right. exists FOOD_PANTRIES. split; [discriminate|].
    vm_compute. reflexivity.
Defined.

End ParsingMore.

(** ** The application: fetching, showing, navigating *)

Module WizardFacts.

Import Eligibility Retrieval Wizard.

Lemma absent_section_empty
      (t : jsstring) (chunks : list GroundingChunk) (m : Marker) :
  absent m t ->
  section m (parsedResources {| SnapResources.text := Some t;
                                SnapResources.groundingChunks := chunks |})
  = [].
Proof.
  intros Habs. rewrite RetrievalFacts.section_is_trimmed_group.
  rewrite RetrievalFacts.regexp_match_none; [reflexivity|].
  intros k. now apply RetrievalFacts.absent_never_occurs.
Qed.

(** The request that [getSnapResources] sends. *)
Lemma fetchResults_rejected
      (generateContent : Request -> Promise Response.t) (a : App)
      (error : jsstring) :
  generateContent
    {| model := lit "gemini-2.5-flash";
       contents := prompt (zipcode (formData a)) (state (formData a));
       tools := [{| googleMaps := true |}] |} = Rejected error ->
  fetchResults generateContent a
  = {| step := step a; formData := formData a; loading := false;
       results := results a;
       output := output a
                 ++ [ConsoleError (lit "Error fetching SNAP resources:") error;
                     ConsoleError [] error;
                     Alert (lit "Something went wrong. Please try again.")] |}.
Proof.
  intros H. unfold fetchResults, getSnapResources.
  cbn [setLoading formData checkEligibility]. rewrite H.
  cbn [fold_left]. unfold setLoading, emit.
  cbn [step formData loading results output].
  now rewrite <- !app_assoc.
Qed.


(** X8: when the service fails, [fetchResults] leaves the step, the form
    and any earlier results as they were, ends with [loading] off, and
    reports the failure three times: the console line of
    [getSnapResources], the console line of its own handler and one alert.
    The screen shown for the results is the one shown before. *)
Theorem fetchResults_failure_keeps_state
        (generateContent : Request -> Promise Response.t) (a : App)
        (error : jsstring) :
  generateContent
    {| model := lit "gemini-2.5-flash";
       contents := prompt (zipcode (formData a)) (state (formData a));
       tools := [{| googleMaps := true |}] |} = Rejected error ->
  let a' := fetchResults generateContent a in
  step a' = step a
  /\ formData a' = formData a
  /\ results a' = results a
  /\ loading a' = false
  /\ output a'
     = output a
       ++ [ConsoleError (lit "Error fetching SNAP resources:") error;
           ConsoleError [] error;
           Alert (lit "Something went wrong. Please try again.")]
  /\ resultsScreen a' = resultsScreen a.
Proof.
  intros H. cbv zeta. rewrite (fetchResults_rejected _ _ _ H).
  repeat split.
Qed.

Lemma fetchResults_failure_keeps_state_witness :
  let a' := fetchResults MoreSamples.failing_service Samples.sample_app in
  step a' = household
  /\ formData a' = formData Samples.sample_app
  /\ results a' = None
  /\ loading a' = false
  /\ output a'
     = [ConsoleError (lit "Error fetching SNAP resources:") (lit "503");
        ConsoleError [] (lit "503");
        Alert (lit "Something went wrong. Please try again.")]
  /\ resultsScreen a' = None.
Proof.
  exact (fetchResults_failure_keeps_state
           MoreSamples.failing_service Samples.sample_app (lit "503")
           eq_refl).
Defined.



(** X10: a response that lacks the candidates, the grounding metadata of
    the first candidate or its list of chunks is not an error:
    [getSnapResources] resolves with the text and an empty list of
    citations, and writes nothing to the console. *)
Theorem getSnapResources_sparse_response
        (generateContent : Request -> Promise Response.t)
        (zipcode state : jsstring) (response : Response.t) :
  generateContent
    {| model := lit "gemini-2.5-flash";
       contents := prompt zipcode state;
       tools := [{| googleMaps := true |}] |} = Resolved response ->
  (Response.candidates response = None
   \/ Response.candidates response = Some []
   \/ exists candidate more,
        Response.candidates response = Some (candidate :: more)
        /\ (Response.groundingMetadata candidate = None
            \/ exists metadata,
                 Response.groundingMetadata candidate = Some metadata
                 /\ Response.groundingChunks metadata = None)) ->
  getSnapResources generateContent zipcode state
  = (Resolved {| SnapResources.text := Response.text response;
                 SnapResources.groundingChunks := [] |}, []).
Proof.
  intros H Hsparse. unfold getSnapResources. rewrite H.
  assert (Hce : chunks_or_empty response = []).
  { unfold chunks_or_empty.
    destruct Hsparse as [->|[->|[c [more [-> [->|[md [-> ->]]]]]]]];
      reflexivity. }
  now rewrite Hce.
Qed.

Lemma getSnapResources_sparse_response_witness :
  getSnapResources MoreSamples.bare_service (lit "43004") (lit "Ohio")
  = (Resolved {| SnapResources.text := Some MoreSamples.pantries_only_text;
                 SnapResources.groundingChunks := [] |}, []).
Proof.
  exact (getSnapResources_sparse_response
           MoreSamples.bare_service (lit "43004") (lit "Ohio")
           MoreSamples.bare_response eq_refl (or_introl eq_refl)).
Defined.

(** X11: the card of offices and stores falls back to the whole response
    exactly when it has neither an office nor a stores section.  When the
    text has neither of these two markers the card begins with the whole
    response text, whether or not a pantries section was found; when one of
    the two sections is not empty the whole response is not shown. *)
Theorem whole_response_fallback
        (t : jsstring) (chunks : list GroundingChunk) :
  let r := parsedResources {| SnapResources.text := Some t;
                              SnapResources.groundingChunks := chunks |} in
  (absent SNAP_OFFICE t -> absent GROCERY_STORES t ->
   exists sources,
     localResources r = WholeResponse t :: sources
     /\ forall b, In b sources -> exists links, b = VerifiedSources links)
  /\ (office r <> [] \/ stores r <> [] ->
      forall x, ~ In (WholeResponse x) (localResources r)).
Proof.
  cbv zeta. split.
  - intros Ho Hs.
    pose proof (absent_section_empty t chunks SNAP_OFFICE Ho) as Hoff.
    pose proof (absent_section_empty t chunks GROCERY_STORES Hs) as Hsto.
    cbn [section] in Hoff, Hsto. unfold localResources.
    rewrite Hoff, Hsto. cbn [truthy negb andb app].
    eexists. split; [reflexivity|].
    intros b Hb. destruct (Nat.ltb 0 _); [|destruct Hb].
    destruct Hb as [<-|[]]. eexists. reflexivity.
  - intros Hne x. unfold localResources.
    set (r := parsedResources _) in *.
    destruct (office r) as [|c o]; destruct (stores r) as [|d s];
      cbn [truthy negb andb app];
      destruct (Nat.ltb 0 _); cbn [In app];
      try (destruct Hne; congruence);
      intuition discriminate.
Qed.

Lemma whole_response_fallback_witness :
  (exists sources,
      localResources
        (parsedResources
           {| SnapResources.text := Some MoreSamples.pantries_only_text;
              SnapResources.groundingChunks := [] |})
      = WholeResponse MoreSamples.pantries_only_text :: sources
      /\ forall b, In b sources -> exists links, b = VerifiedSources links)
  /\ forall x,
       ~ In (WholeResponse x)
            (localResources
               (parsedResources
                  {| SnapResources.text := Some Samples.shuffled_text;
                     SnapResources.groundingChunks := [] |})).
Proof.
  split.
  - apply (proj1 (whole_response_fallback MoreSamples.pantries_only_text [])).
    + vm_compute. reflexivity.
    + vm_compute. reflexivity.
  - apply (proj2 (whole_response_fallback Samples.shuffled_text [])).
    left. vm_compute. discriminate.
Defined.

(** *** Navigation *)

Lemma setStep_same (a : App) : setStep (step a) a = a.
Proof. destruct a; reflexivity. Qed.

(** X12: Back undoes Next on the landing and location steps, and Next
    undoes Back on the location and household steps: the whole state,
    form included, is what it was. *)
Theorem back_and_next_are_inverse
        (generateContent : Request -> Promise Response.t) (a : App) :
  (step a = landing \/ step a = location ->
   handleBack (handleNext generateContent a) = a)
  /\ (step a = location \/ step a = household ->
      handleNext generateContent (handleBack a) = a).
Proof.
  split; intros [H|H]; unfold handleNext, handleBack;
    rewrite H; cbn [setStep step]; rewrite <- H; destruct a; reflexivity.
Qed.

Lemma back_and_next_are_inverse_witness :
  handleBack (handleNext Samples.sample_service
                         (setStep location Samples.sample_app))
  = setStep location Samples.sample_app
  /\ handleNext Samples.sample_service (handleBack Samples.sample_app)
     = Samples.sample_app.
Proof.
  split.
  - exact (proj1 (back_and_next_are_inverse
                    Samples.sample_service
                    (setStep location Samples.sample_app))
                 (or_intror eq_refl)).
  - exact (proj2 (back_and_next_are_inverse
                    Samples.sample_service Samples.sample_app)
                 (or_intror eq_refl)).
Defined.

(** *** The family size field *)












(** Beyond 2^53 the double read is the nearest one, and a text of more than
    308 digits reads as infinity. *)
Example parseInt_rounds_to_double :
  parseInt (lit "9007199254740993") = JsNumber.of_Z 9007199254740992
  /\ parseInt (lit "9007199254740992") = JsNumber.of_Z 9007199254740992
  /\ parseInt (decimal (10 ^ 309)) = PrimFloat.infinity
  /\ parseInt (lit "  -42px") = PrimFloat.opp (JsNumber.of_Z 42)
  /\ PrimFloat.is_nan (parseInt (lit "px")) = true.
Proof. vm_compute. repeat split. Qed.



End WizardFacts.

(** ** The voice-agent page under any sequence of events *)

Module ControllerFacts.

Import Session Controller.

Ltac list_grows :=
  first [ reflexivity
        | symmetry; apply app_nil_r
        | rewrite <- !app_assoc; reflexivity ].

Ltac effect_done :=
  do 2 eexists;
  cbn [act is_toggle is_start handleKeyDown fst
       handleStartSession handleEndSession handleToggleMode setTimeout
       addMessage setMessages setIsTextMode setTextInput call with_timers
       transport_status messages calls isTextMode timers status textInput];
  split; [list_grows|]; split; [list_grows|];
  split; [now rewrite ?xorb_false_r, ?xorb_true_r|];
  cbn [filter is_start_session is_get_user_media length app]; lia.

(** What one event does to the log, to the calls and to the mode. *)
Lemma act_effect (AGENT_ID : jsstring) (a : Action) (s : State) :
  exists m c,
    messages (act AGENT_ID a s) = messages s ++ m
    /\ calls (act AGENT_ID a s) = calls s ++ c
    /\ isTextMode (act AGENT_ID a s) = xorb (isTextMode s) (is_toggle a)
    /\ (length (filter is_start_session c)
        <= length (filter is_get_user_media c))%nat
    /\ (length (filter is_get_user_media c)
        <= if is_start a then 1 else 0)%nat.
Proof.
  destruct a as [p c|e|e|p c|ev r|v|r|k r].
  - destruct p as [[]|?], c as [[]|?]; effect_done.
  - destruct e as [[]|?]; effect_done.
  - unfold act, handleToggleMode.
    destruct (isConnected s), e as [[]|?]; effect_done.
  - unfold act, fire_timer. destruct (timers s) as [|t ts];
      [effect_done|]. destruct p as [[]|?], c as [[]|?]; effect_done.
  - unfold act, onMessage.
    destruct (jsstring_eqb (source ev) (lit "ai"));
      [|destruct (jsstring_eqb (source ev) (lit "user"))]; effect_done.
  - effect_done.
  - unfold act, handleSendText.
    destruct (trim (textInput s)); [effect_done|].
    destruct (negb (isConnected s)); effect_done.
  - unfold act, handleKeyDown.
    destruct (jsstring_eqb (key k) (lit "Enter") && negb (shiftKey k));
      [|effect_done].
    unfold handleSendText. destruct (trim (textInput s)); [effect_done|].
    destruct (negb (isConnected s)); effect_done.
Qed.

Lemma run_cons (AGENT_ID : jsstring) (a : Action) (l : list Action)
      (s : State) :
  run AGENT_ID (a :: l) s = run AGENT_ID l (act AGENT_ID a s).
Proof. reflexivity. Qed.

(** X16: whatever happens on the page, in any order (taps, keys, typing,
    events of the transport, timers), the message log and the record of
    calls only grow at the end: no message is ever removed, reordered or
    rewritten, and the log survives ending, restarting and toggling. *)
Theorem log_only_grows
        (AGENT_ID : jsstring) (actions : list Action) (s : State) :
  grows_from (messages s) (messages (run AGENT_ID actions s))
  /\ grows_from (calls s) (calls (run AGENT_ID actions s)).
Proof.
  revert s. induction actions as [|a l IH]; intros s.
  - split; exists []; cbn; now rewrite app_nil_r.
  - rewrite run_cons.
    destruct (act_effect AGENT_ID a s) as [m [c [Hm [Hc _]]]].
    destruct (IH (act AGENT_ID a s)) as [[m' Hm'] [c' Hc']].
    split.
    + exists (m ++ m'). now rewrite Hm', Hm, app_assoc.
    + exists (c ++ c'). now rewrite Hc', Hc, app_assoc.
Qed.

(** X17: the mode changes with taps on the toggle and with nothing else:
    after any sequence of events it is the mode at the start, flipped once
    for every toggle. *)
Theorem mode_follows_toggles
        (AGENT_ID : jsstring) (actions : list Action) (s : State) :
  isTextMode (run AGENT_ID actions s)
  = xorb (isTextMode s) (Nat.odd (length (filter is_toggle actions))).
Proof.
  revert s. induction actions as [|a l IH]; intros s.
  - cbn. now rewrite xorb_false_r.
  - rewrite run_cons, IH.
    destruct (act_effect AGENT_ID a s) as [m [c [_ [_ [Hmode _]]]]].
    rewrite Hmode. cbn [filter]. destruct (is_toggle a).
    + cbn [length]. rewrite Nat.odd_succ, <- Nat.negb_odd.
      destruct (isTextMode s), (Nat.odd (length (filter is_toggle l)));
        reflexivity.
    + now rewrite xorb_false_r.
Qed.









(** *** Sending text *)

(** X19: [handleSendText] does nothing at all when the text box is blank
    or the session is not connected.  Otherwise it logs one user message
    whose text is the trimmed input, hands the same text to the transport,
    empties the text box and focuses it; the text is not empty and has no
    white space at either end. *)
Theorem send_text_guard_and_effect (r : Readings) (s : State) :
  (trim (textInput s) = [] \/ status s <> connected ->
   handleSendText r s = s)
  /\ (trim (textInput s) <> [] -> status s = connected ->
      let s' := handleSendText r s in
      let sent := trim (textInput s) in
      exists msg,
        messages s' = messages s ++ [msg]
        /\ role msg = user /\ text msg = sent
        /\ timestamp msg = new_date r
        /\ calls s' = calls s ++ [SendUserMessage sent; FocusInput]
        /\ textInput s' = []
        /\ status s' = connected
        /\ trim sent = sent).
Proof.
  unfold handleSendText, isConnected. split.
  - intros [H|H].
    + now rewrite H.
    + destruct (trim (textInput s)); [reflexivity|].
      destruct (status s); try reflexivity. congruence.
  - intros Hne Hst. cbv zeta. rewrite Hst.
    destruct (trim (textInput s)) as [|c u] eqn:E; [congruence|].
    cbn [negb]. eexists.
    cbn [addMessage setMessages setTextInput call messages calls textInput
         status role text timestamp].
    split; [reflexivity|]. do 3 (split; [reflexivity|]).
    split; [now rewrite E, <- app_assoc|]. split; [reflexivity|].
    split; [exact Hst|]. rewrite <- E. apply ParsingMore.trim_idempotent.
Qed.

Lemma send_text_guard_and_effect_witness :
  handleSendText Samples.same_instant Session.initial = Session.initial
  /\ exists msg,
       messages (handleSendText Samples.same_instant MoreSamples.drafting)
       = [msg]
       /\ role msg = user /\ text msg = lit "do I qualify?"
       /\ calls (handleSendText Samples.same_instant MoreSamples.drafting)
          = calls MoreSamples.drafting
            ++ [SendUserMessage (lit "do I qualify?"); FocusInput]
       /\ textInput (handleSendText Samples.same_instant
                                    MoreSamples.drafting) = [].
Proof.
  split.
  - apply (proj1 (send_text_guard_and_effect Samples.same_instant
                                             Session.initial)).
    left. reflexivity.
  - destruct (proj2 (send_text_guard_and_effect Samples.same_instant
                                                MoreSamples.drafting))
      as [msg (Hm & Hr & Ht & _ & Hc & Hi & _)].
    + vm_compute. discriminate.
    + reflexivity.
    + exists msg. repeat split; assumption.
Defined.

(** X20: submitting twice in a row sends once: after [handleSendText] the
    text box is empty (or the guard had refused), so a second
    [handleSendText] changes nothing. *)
Theorem send_text_twice_sends_once (r r' : Readings) (s : State) :
  handleSendText r' (handleSendText r s) = handleSendText r s.
Proof.
  unfold handleSendText at 2 3.
  destruct (trim (textInput s)) as [|c u] eqn:E.
  - unfold handleSendText. now rewrite E.
  - destruct (negb (isConnected s)) eqn:Ec.
    + unfold handleSendText. now rewrite E, Ec.
    + unfold handleSendText. cbn [call setTextInput textInput]. reflexivity.
Qed.

(** *** Starting *)

(** X21: [handleStartSession] does not look at the mode or at the
    connection: text and voice sessions are started in exactly the same
    way, and once the microphone is granted [startSession] is called with
    the agent identifier alone, also when a session is already connected
    or connecting. *)
Theorem start_ignores_mode_and_status (AGENT_ID : jsstring) :
  (forall (mode mode' : bool) (permission connection : Promise unit)
          (s : State),
      handleStartSession AGENT_ID mode permission connection s
      = handleStartSession AGENT_ID mode' permission connection s)
  /\ (forall (mode : bool) (connection : Promise unit) (s : State),
         exists more,
           calls (handleStartSession AGENT_ID mode (Resolved tt)
                                     connection s)
           = calls s
             ++ [ConsoleLog (lit "Starting session...");
                 GetUserMedia true;
                 StartSession {| agentId := AGENT_ID; spread := [] |}]
             ++ more).
Proof.
  split.
  - intros [|] [|] permission connection s; reflexivity.
  - intros mode [[]|err] s; eexists; unfold handleStartSession;
      destruct mode;
      cbn [calls call transport_status]; rewrite <- !app_assoc;
      cbn [app]; try reflexivity.
    all: instantiate (1 := []); reflexivity.
Qed.

(** *** Events of the transport *)

(** X22: an event whose source is neither ['ai'] nor ['user'], compared
    exactly and with case, is dropped without a trace: the state is
    unchanged. *)
Theorem unknown_source_is_dropped
        (event : MessageEvent) (r : Readings) (s : State) :
  source event <> lit "ai" -> source event <> lit "user" ->
  onMessage event r s = s.
Proof.
  intros Hai Huser. unfold onMessage.
  destruct (jsstring_eqb (source event) (lit "ai")) eqn:E1.
  { apply SessionFacts.jsstring_eqb_eq in E1. congruence. }
  destruct (jsstring_eqb (source event) (lit "user")) eqn:E2.
  { apply SessionFacts.jsstring_eqb_eq in E2. congruence. }
  reflexivity.
Qed.

Lemma unknown_source_is_dropped_witness :
  onMessage MoreSamples.shouted_event Samples.same_instant
            Samples.connected_voice
  = Samples.connected_voice.
Proof.
  apply unknown_source_is_dropped; vm_compute; discriminate.
Defined.

(** *** Toggling when the session does not end *)

(** X23: when [endSession] fails during a toggle of a connected session,
    the failure is logged, and the toggle goes on: the mode is flipped and
    the deferred start is scheduled, while the session is still
    connected. *)
Theorem toggle_goes_on_when_end_fails
        (err : jsstring) (s : State) :
  status s = connected ->
  let s' := handleToggleMode (Rejected err) s in
  status s' = connected
  /\ isTextMode s' = negb (isTextMode s)
  /\ timers s'
     = timers s ++ [{| delay := 300; captured_isTextMode := isTextMode s |}]
  /\ calls s'
     = calls s ++ [EndSession;
                   ConsoleError (lit "Failed to end session:") err;
                   SetTimeout 300]
  /\ messages s' = messages s.
Proof.
  intros Hst. cbv zeta.
  rewrite (SessionFacts.handleToggleMode_connected _ _ Hst).
  cbn [handleEndSession setTimeout setIsTextMode call with_timers status
       isTextMode timers calls messages delay].
  rewrite <- !app_assoc. repeat split. exact Hst.
Qed.

Lemma toggle_goes_on_when_end_fails_witness :
  let s' := handleToggleMode (Rejected (lit "socket closed"))
                             Samples.connected_voice in
  status s' = connected
  /\ isTextMode s' = true
  /\ timers s' = [{| delay := 300; captured_isTextMode := false |}]
  /\ calls s'
     = calls Samples.connected_voice
       ++ [EndSession;
           ConsoleError (lit "Failed to end session:") (lit "socket closed");
           SetTimeout 300]
  /\ messages s' = [].
Proof.
  exact (toggle_goes_on_when_end_fails (lit "socket closed")
                                       Samples.connected_voice eq_refl).
Defined.

End ControllerFacts.

(** ** The database module *)

Module MongoFacts.

Import Mongo.

Lemma load_development_cached (env : Env) (rt : Runtime)
      (u : jsstring) (p : ClientPromise) :
  MONGO_URI env = Some u -> u <> [] ->
  NODE_ENV env = Some (lit "development") ->
  _mongoClientPromise rt = Some p ->
  load env rt = (Exported p, rt).
Proof.
  intros Hu Hne Hdev Hc. unfold load. rewrite Hu, Hdev, Hc.
  destruct u; [congruence|]. reflexivity.
Qed.

Lemma reload_development_cached (env : Env) (n : nat) (rt : Runtime)
      (u : jsstring) (p : ClientPromise) :
  MONGO_URI env = Some u -> u <> [] ->
  NODE_ENV env = Some (lit "development") ->
  _mongoClientPromise rt = Some p ->
  reload env n rt = (repeat (Exported p) n, rt).
Proof.
  intros Hu Hne Hdev Hc. induction n as [|n IH]; [reflexivity|].
  cbn [reload]. rewrite (load_development_cached env rt u p) by assumption.
  now rewrite IH.
Qed.

(** X24: in development, however often the module is evaluated (hot
    reloads), every evaluation exports the same client promise and at most
    one connection is opened: none when a promise is already cached on
    [global], one otherwise. *)
Theorem development_connects_once
        (env : Env) (n : nat) (rt : Runtime) (u : jsstring) :
  MONGO_URI env = Some u -> u <> [] ->
  NODE_ENV env = Some (lit "development") ->
  exists p,
    fst (reload env (S n) rt) = repeat (Exported p) (S n)
    /\ _mongoClientPromise (snd (reload env (S n) rt)) = Some p
    /\ opened (snd (reload env (S n) rt))
       = match _mongoClientPromise rt with
         | Some _ => opened rt
         | None => opened rt ++ [p]
         end.
Proof.
  intros Hu Hne Hdev.
  destruct (_mongoClientPromise rt) as [p|] eqn:Hc.
  - exists p.
    rewrite (reload_development_cached env (S n) rt u p) by assumption.
    cbn [fst snd]. now rewrite Hc.
  - exists {| serial := length (opened rt); uri := u |}.
    assert (Hload : load env rt
                    = (Exported {| serial := length (opened rt); uri := u |},
                       {| _mongoClientPromise :=
                            Some {| serial := length (opened rt); uri := u |};
                          opened := opened rt
                                    ++ [{| serial := length (opened rt);
                                           uri := u |}] |})).
    { unfold load. rewrite Hu, Hdev, Hc.
      destruct u as [|c u]; [congruence|]. reflexivity. }
    cbn [reload]. rewrite Hload.
    rewrite (reload_development_cached
               env n _ u {| serial := length (opened rt); uri := u |})
      by (assumption || reflexivity).
    cbn [fst snd repeat _mongoClientPromise opened]. repeat split.
Qed.

Lemma development_connects_once_witness :
  exists p,
    fst (reload {| MONGO_URI := Some (lit "mongodb://localhost/foodnav");
                   NODE_ENV := Some (lit "development") |}
                3 {| _mongoClientPromise := None; opened := [] |})
    = [Exported p; Exported p; Exported p]
    /\ opened (snd (reload
                      {| MONGO_URI := Some (lit "mongodb://localhost/foodnav");
                         NODE_ENV := Some (lit "development") |}
                      3 {| _mongoClientPromise := None; opened := [] |}))
       = [p].
Proof.
  destruct (development_connects_once
              {| MONGO_URI := Some (lit "mongodb://localhost/foodnav");
                 NODE_ENV := Some (lit "development") |}
              2 {| _mongoClientPromise := None; opened := [] |}
              (lit "mongodb://localhost/foodnav"))
    as [p (Hexp & _ & Hopen)].
  - reflexivity.
  - vm_compute. discriminate.
  - reflexivity.
  - exists p. split; assumption.
Defined.

(** X25: outside development every evaluation of the module opens a
    connection of its own and leaves [global] alone: [n] evaluations open
    [n] connections. *)
Theorem production_connects_every_time
        (env : Env) (n : nat) (rt : Runtime) (u : jsstring) :
  MONGO_URI env = Some u -> u <> [] ->
  NODE_ENV env <> Some (lit "development") ->
  fst (reload env n rt)
  = map (fun i => Exported {| serial := length (opened rt) + i; uri := u |})
        (seq 0 n)
  /\ opened (snd (reload env n rt))
     = opened rt
       ++ map (fun i => {| serial := length (opened rt) + i; uri := u |})
              (seq 0 n)
  /\ _mongoClientPromise (snd (reload env n rt)) = _mongoClientPromise rt.
Proof.
  intros Hu Hne Hprod.
  assert (Hload : forall rt,
             load env rt
             = (Exported {| serial := length (opened rt); uri := u |},
                {| _mongoClientPromise := _mongoClientPromise rt;
                   opened := opened rt
                             ++ [{| serial := length (opened rt);
                                    uri := u |}] |})).
  { intros rt0. unfold load. rewrite Hu. destruct u as [|c u]; [congruence|].
    destruct (NODE_ENV env) as [mode|]; [|reflexivity].
    destruct (jsstring_eqb mode (lit "development")) eqn:E; [|reflexivity].
    apply SessionFacts.jsstring_eqb_eq in E. congruence. }
  revert rt. induction n as [|n IH]; intros rt.
  - cbn. now rewrite app_nil_r.
  - cbn [reload]. rewrite Hload.
    specialize (IH {| _mongoClientPromise := _mongoClientPromise rt;
                      opened := opened rt
                                ++ [{| serial := length (opened rt);
                                       uri := u |}] |}).
    destruct (reload env n _) as [ls rt'] eqn:Er.
    cbn [fst snd _mongoClientPromise opened] in *.
    destruct IH as (IH1 & IH2 & IH3).
    rewrite length_app in IH1, IH2. cbn [length] in IH1, IH2.
    cbn [seq map]. rewrite Nat.add_0_r.
    rewrite <- (seq_shift n 0), !map_map.
    split; [|split].
    + f_equal. rewrite IH1. apply map_ext. intros i. do 2 f_equal. lia.
    + rewrite IH2, <- app_assoc. cbn [app]. do 2 f_equal.
      apply map_ext. intros i. f_equal. lia.
    + exact IH3.
Qed.

Lemma production_connects_every_time_witness :
  opened (snd (reload {| MONGO_URI := Some (lit "mongodb://db/foodnav");
                         NODE_ENV := Some (lit "production") |}
                      2 {| _mongoClientPromise := None; opened := [] |}))
  = [{| serial := 0; uri := lit "mongodb://db/foodnav" |};
     {| serial := 1; uri := lit "mongodb://db/foodnav" |}].
Proof.
  refine (proj1 (proj2 (production_connects_every_time
                          {| MONGO_URI := Some (lit "mongodb://db/foodnav");
                             NODE_ENV := Some (lit "production") |}
                          2 {| _mongoClientPromise := None; opened := [] |}
                          (lit "mongodb://db/foodnav") eq_refl _ _)));
    vm_compute; discriminate.
Defined.

(** X26: the module throws exactly when [MONGO_URI] is missing or empty,
    whatever the environment is otherwise; then nothing is connected and
    [global] is untouched. *)
Theorem missing_uri_throws (env : Env) (rt : Runtime) :
  ((exists message, fst (load env rt) = Thrown message)
   <-> (MONGO_URI env = None \/ MONGO_URI env = Some []))
  /\ (MONGO_URI env = None \/ MONGO_URI env = Some [] ->
      load env rt = (Thrown (lit "MONGO_URI not set in .env"), rt)).
Proof.
  unfold load. destruct (MONGO_URI env) as [[|c u]|].
  - split; [split|]; [right; reflexivity | eexists; reflexivity
                     | reflexivity].
  - split; [split|].
    + intros [message H].
      destruct (match NODE_ENV env with
                | Some mode => jsstring_eqb mode (lit "development")
                | None => false
                end); [destruct (_mongoClientPromise rt)|];
        discriminate H.
    + intros [H|H]; discriminate H.
    + intros [H|H]; discriminate H.
  - split; [split|]; [left; reflexivity | eexists; reflexivity
                     | reflexivity].
Qed.

Lemma missing_uri_throws_witness :
  load {| MONGO_URI := None; NODE_ENV := Some (lit "development") |}
       {| _mongoClientPromise := None; opened := [] |}
  = (Thrown (lit "MONGO_URI not set in .env"),
     {| _mongoClientPromise := None; opened := [] |}).
Proof.
  exact (proj2 (missing_uri_throws
                  {| MONGO_URI := None;
                     NODE_ENV := Some (lit "development") |}
                  {| _mongoClientPromise := None; opened := [] |})
               (or_introl eq_refl)).
Defined.

End MongoFacts.

(** ** The request text *)

Module PromptFacts.

Import Retrieval.

Lemma filter_map_comm (A B : Type) (f : B -> bool) (g : A -> B)
      (l : list A) :
  filter f (map g l) = map g (filter (fun x => f (g x)) l).
Proof.
  induction l as [|x l IH]; [reflexivity|].
  simpl. destruct (f (g x)); simpl; now rewrite IH.
Qed.

(** A pattern that begins with a bracket does not occur inside a prefix
    without brackets. *)
Lemma occurrences_after_prefix (p' X Y : jsstring) :
  ~ In 91%N X ->
  occurrences (91%N :: p') (X ++ Y)
  = map (Nat.add (length X)) (occurrences (91%N :: p') Y).
Proof.
  induction X as [|x X IH]; intros Hno.
  - cbn [app length]. now rewrite map_id.
  - specialize (IH ltac:(intros H; apply Hno; now right)).
    unfold occurrences in *.
    change (length ((x :: X) ++ Y)) with (S (length (X ++ Y))).
    change ((x :: X) ++ Y) with (x :: X ++ Y).
    rewrite <- (cons_seq (S (length (X ++ Y))) 0). cbn [filter].
    assert (Hx : occurs_at (91%N :: p') (x :: X ++ Y) 0 = false).
    { unfold occurs_at. cbn [skipn starts_with].
      destruct (N.eqb 91 x) eqn:E; [|reflexivity].
      apply N.eqb_eq in E. subst x. exfalso. apply Hno. now left. }
    rewrite Hx. rewrite <- (seq_shift (S (length (X ++ Y))) 0).
    rewrite filter_map_comm.
    assert (Hext : forall l,
               filter (fun k => occurs_at (91%N :: p') (x :: X ++ Y) (S k)) l
               = filter (occurs_at (91%N :: p') (X ++ Y)) l).
    { intros l. apply filter_ext. intros k. reflexivity. }
    rewrite Hext, IH, map_map. reflexivity.
Qed.

(** X27: when neither the zipcode nor the state contains an opening
    bracket, the request text names each of the three markers exactly once,
    in the order office, stores, pantries, after everything else: the
    markers stand at fixed distances behind the two inserted values. *)
Theorem prompt_names_each_marker_once
        (zipcode state : jsstring) (m : Marker) :
  ~ In 91%N zipcode -> ~ In 91%N state ->
  occurrences (token m) (prompt zipcode state)
  = [length zipcode + length state
     + match m with
       | SNAP_OFFICE => 683
       | GROCERY_STORES => 699
       | FOOD_PANTRIES => 718
       end]%nat
  /\ occurs_once m (prompt zipcode state).
Proof.
  intros Hz Hs.
  assert (Hocc :
            occurrences (token m) (prompt zipcode state)
            = [length zipcode + length state
               + match m with
                 | SNAP_OFFICE => 683
                 | GROCERY_STORES => 699
                 | FOOD_PANTRIES => 718
                 end]%nat).
  { unfold prompt.
    set (A := lit "Find the following resources near zipcode ").
    set (B := lit " in ").
    match goal with
    | |- occurrences _ (A ++ zipcode ++ B ++ state ++ ?c) = _ =>
        set (C := c)
    end.
    replace (A ++ zipcode ++ B ++ state ++ C)
      with ((A ++ zipcode ++ B ++ state) ++ C)
      by (now rewrite <- !app_assoc).
    assert (Hpre : ~ In 91%N (A ++ zipcode ++ B ++ state)).
    { rewrite !in_app_iff. intros [H|[H|[H|H]]]; auto.
      - vm_compute in H. intuition discriminate.
      - vm_compute in H. intuition discriminate. }
    assert (HC : forall m',
               occurrences (token m') C
               = [match m' with
                  | SNAP_OFFICE => 637
                  | GROCERY_STORES => 653
                  | FOOD_PANTRIES => 672
                  end]%nat)
      by (intros m'; destruct m'; vm_compute; reflexivity).
    assert (Htok : exists p', token m = 91%N :: p')
      by (destruct m; eexists; vm_compute; reflexivity).
    destruct Htok as [p' Hp]. rewrite Hp.
    rewrite (occurrences_after_prefix p' _ C Hpre). rewrite <- Hp, HC.
    cbn [map]. f_equal. rewrite !length_app.
    change (length A) with 42%nat. change (length B) with 4%nat.
    destruct m; lia. }
  split; [exact Hocc|]. unfold occurs_once. now rewrite Hocc.
Qed.

Lemma prompt_names_each_marker_once_witness :
  occurrences (token GROCERY_STORES) (prompt (lit "43004") (lit "Ohio"))
  = [708%nat]
  /\ occurs_once GROCERY_STORES (prompt (lit "43004") (lit "Ohio")).
Proof.
  apply (prompt_names_each_marker_once (lit "43004") (lit "Ohio")
                                       GROCERY_STORES);
    vm_compute; intuition discriminate.
Defined.

End PromptFacts.
